(** * gitleaks-action: the orchestration controller of [src/index.js]

    A shallow embedding of the controller: the two feature flags read from
    the environment, the owner lookup that decides [shouldValidate], the
    license check run in the lookup's [finally] handler, and the [start]
    function (event check, key validation, engine resolution, scan dispatch,
    job summary, exit-code interpretation).

    The modules [summary.js], [keygen.js], [gitleaks.js] and the Octokit
    client are collaborators whose code is not part of this development;
    they appear as fields of a record of oracles, and every call made to them
    is recorded in the trace of the run.

    What the embedding takes for granted: the event payload parses and has a
    [repository.owner.login] string (the script throws at line 32 or 40
    otherwise, before anything modelled here); the owner lookup answers with
    a string in [data.type]; the scan executor returns integers; and a
    promise returned by a collaborator settles. *)

From Stdlib Require Import ZArith NArith String Ascii List Lia.
From Stdlib Require Import DecimalString DecimalZ DecimalPos.
From stdpp Require Import base option gmap strings.
Import ListNotations.

(** ** The fragment of JavaScript the controller relies on *)

Module JS.

(** Values of [process.env] are strings, held here as their UTF-8 bytes; a
    variable that is not set reads as [undefined], modelled by [None]. *)

Definition code (c : ascii) : N := N_of_ascii c.

(** [StrWhiteSpaceChar] of ECMA-262: WhiteSpace and LineTerminator.  The
    one-byte members are TAB, LF, VT, FF, CR and SP. *)
Definition ws1 (c : ascii) : bool :=
  let n := code c in
  ((9 <=? n) && (n <=? 13) || (n =? 32))%N.

(** U+00A0, encoded C2 A0. *)
Definition ws2 (c1 c2 : ascii) : bool :=
  ((code c1 =? 194) && (code c2 =? 160))%N.

(** U+1680, U+2000..U+200A, U+2028, U+2029, U+202F, U+205F, U+3000 and
    U+FEFF, each three bytes long. *)
Definition ws3 (c1 c2 c3 : ascii) : bool :=
  let a := code c1 in
  let b := code c2 in
  let c := code c3 in
  ((a =? 225) && (b =? 154) && (c =? 128)
   || (a =? 226) && (b =? 128)
      && ((128 <=? c) && (c <=? 138) || (c =? 168) || (c =? 169) || (c =? 175))
   || (a =? 226) && (b =? 129) && (c =? 159)
   || (a =? 227) && (b =? 128) && (c =? 128)
   || (a =? 239) && (b =? 187) && (c =? 191))%N.

Fixpoint skip_ws (s : string) : string :=
  match s with
  | EmptyString => s
  | String c1 r1 =>
      if ws1 c1 then skip_ws r1
      else
        match r1 with
        | EmptyString => s
        | String c2 r2 =>
            if ws2 c1 c2 then skip_ws r2
            else
              match r2 with
              | EmptyString => s
              | String c3 r3 => if ws3 c1 c2 c3 then skip_ws r3 else s
              end
        end
  end.

Definition is_empty (s : string) : bool :=
  match s with EmptyString => true | String _ _ => false end.

(** Digits of radix up to 16, with their value. *)
Definition digit_val (c : ascii) : option N :=
  let n := code c in
  if ((48 <=? n) && (n <=? 57))%N then Some (n - 48)%N
  else if ((97 <=? n) && (n <=? 102))%N then Some (n - 87)%N
  else if ((65 <=? n) && (n <=? 70))%N then Some (n - 55)%N
  else None.

Definition digit_in (radix : N) (c : ascii) : option N :=
  match digit_val c with
  | Some d => if (d <? radix)%N then Some d else None
  | None => None
  end.

(** The longest prefix of digits of [s] in [radix]: the number of digits
    read, their value continuing from [acc], and the rest of the string. *)
Fixpoint digits (radix : N) (s : string) (len acc : N) : N * N * string :=
  match s with
  | EmptyString => (len, acc, s)
  | String c r =>
      match digit_in radix c with
      | Some d => digits radix r (len + 1)%N (acc * radix + d)%N
      | None => (len, acc, s)
      end
  end.

(** The outcome of [StringToNumber] as far as a comparison with [0] needs
    it: the string is not a numeric literal ([NaN]), or it is one and its
    Number value is a zero or is not. *)
Inductive numclass := NaN | Zero | NonZero.

(** A mathematical value [m * 10^k] with [m > 0] rounds to the Number
    [+0] exactly when it is at most [2^-1075], half of the least positive
    double (a tie goes to the even significand, that of zero).  The value is
    rounded exactly, as V8 does; ECMA-262 also lets an implementation drop
    the digits after the twentieth before it rounds. *)
Definition rounds_to_zero (m : N) (k : Z) : bool :=
  (k <? 0)%Z && (Z.of_N m * 2 ^ 1075 <=? 10 ^ (- k))%Z.

Definition classify_decimal (m : N) (k : Z) : numclass :=
  if (m =? 0)%N then Zero
  else if rounds_to_zero m k then Zero else NonZero.

(** [ExponentPart]: [e] or [E], an optional sign and at least one digit.
    [None] when the exponent indicator is not followed by a signed integer,
    in which case the whole string is not a literal. *)
Definition exponent (s : string) : option (Z * string) :=
  match s with
  | String c r =>
      if ((code c =? 101) || (code c =? 69))%N then
        let '(neg, r') :=
          match r with
          | String sg r1 =>
              if (code sg =? 45)%N then (true, r1)
              else if (code sg =? 43)%N then (false, r1)
              else (false, r)
          | EmptyString => (false, r)
          end in
        let '(len, v, rest) := digits 10 r' 0 0 in
        if (len =? 0)%N then None
        else Some (if neg then (- Z.of_N v)%Z else Z.of_N v, rest)
      else Some (0%Z, s)
  | EmptyString => Some (0%Z, s)
  end.

(** [StrUnsignedDecimalLiteral] other than [Infinity]. *)
Definition unsigned_decimal (s : string) : option (numclass * string) :=
  let '(l1, m1, r1) := digits 10 s 0 0 in
  let '(l2, m, r2) :=
    match r1 with
    | String c r =>
        if (code c =? 46)%N then digits 10 r 0 m1 else (0%N, m1, r1)
    | EmptyString => (0%N, m1, r1)
    end in
  let dot_only := (l1 =? 0)%N && (l2 =? 0)%N in
  if dot_only then None
  else
    match exponent r2 with
    | Some (e, rest) => Some (classify_decimal m (e - Z.of_N l2), rest)
    | None => None
    end.

(** [NonDecimalIntegerLiteral]: [0x], [0o] or [0b] in either case, then at
    least one digit of that radix.  No sign is allowed. *)
Definition radix_prefix (s : string) : option (N * string) :=
  match s with
  | String z (String p r) =>
      if (code z =? 48)%N then
        let n := code p in
        if ((n =? 120) || (n =? 88))%N then Some (16%N, r)
        else if ((n =? 111) || (n =? 79))%N then Some (8%N, r)
        else if ((n =? 98) || (n =? 66))%N then Some (2%N, r)
        else None
      else None
  | _ => None
  end.

Definition strip_sign (s : string) : string :=
  match s with
  | String c r => if ((code c =? 43) || (code c =? 45))%N then r else s
  | EmptyString => s
  end.

(** [StrNumericLiteral]; the sign of a zero or of an infinity plays no part
    in a comparison with [0]. *)
Definition numeric_literal (s : string) : option (numclass * string) :=
  match radix_prefix s with
  | Some (radix, r) =>
      let '(len, v, rest) := digits radix r 0 0 in
      if (len =? 0)%N then None
      else Some (if (v =? 0)%N then Zero else NonZero, rest)
  | None =>
      let u := strip_sign s in
      if String.prefix "Infinity" u
      then Some (NonZero, substring 8 (String.length u - 8) u)
      else unsigned_decimal u
  end.

(** [StringToNumber]: white space around an optional numeric literal; the
    empty or blank string converts to [+0]. *)
Definition string_to_number (s : string) : numclass :=
  let t := skip_ws s in
  if is_empty t then Zero
  else
    match numeric_literal t with
    | Some (cl, rest) => if is_empty (skip_ws rest) then cl else NaN
    | None => NaN
    end.

(** [v == "..."] for [v] a string or [undefined]: two strings are loosely
    equal when they are the same string, [undefined] equals no string. *)
Definition loose_eq_string (v : option string) (s : string) : bool :=
  match v with
  | Some x => String.eqb x s
  | None => false
  end.

(** [v == 0] for [v] a string or [undefined]: the string is converted with
    [StringToNumber] and compared as a number; [undefined == 0] is false. *)
Definition loose_eq_zero (v : option string) : bool :=
  match v with
  | Some x =>
      match string_to_number x with
      | Zero => true
      | _ => false
      end
  | None => false
  end.

(** [!v] and [v || ...] for [v] a string or [undefined]: only [undefined]
    and the empty string are falsy. *)
Definition truthy (v : option string) : bool :=
  match v with
  | Some x => negb (is_empty x)
  | None => false
  end.

(** A string or [undefined] spliced into a template literal or
    concatenated to a string. *)
Definition to_string (v : option string) : string :=
  match v with
  | Some x => x
  | None => "undefined"
  end.

(** The decimal numeral of an integer, with a leading minus sign when
    negative. *)
Definition number_to_string (n : Z) : string :=
  NilEmpty.string_of_int (Z.to_int n).

(** Numbers are doubles.  Every integer up to [2^53] in magnitude is one; a
    larger integer [x > 0] stands for the double nearest to it, with 53
    significant bits and ties going to the even significand. *)
Definition to_double (x : Z) : Z :=
  let b := Z.log2 x in
  if (b <=? 52)%Z then x
  else
    let ulp := (2 ^ (b - 52))%Z in
    let m := (x / ulp)%Z in
    let r := (x mod ulp)%Z in
    let m' :=
      if (2 * r <? ulp)%Z then m
      else if (ulp <? 2 * r)%Z then (m + 1)%Z
      else if Z.even m then m else (m + 1)%Z in
    (m' * ulp)%Z.

(** [v] rounds to the double whose rounding interval, scaled by four, is
    [lo .. hi]; the bounds belong to it when the significand is even. *)
Definition rounds_to (closed : bool) (lo hi v : Z) : bool :=
  if closed then ((lo <=? 4 * v) && (4 * v <=? hi))%Z
  else ((lo <? 4 * v) && (4 * v <? hi))%Z.

(** [Number::toString], step 5: the least [k] and a [k]-digit [s] with
    [s * 10^(n - k)] rounding to the double [d]; of two such [s] the one
    nearer to [d], the even one if they are as near.  [d] has [nd] digits;
    the result is [(s, n)]. *)
Fixpoint shortest_from (fuel : nat) (k nd d lo hi : Z) (closed : bool)
  : Z * Z :=
  match fuel with
  | O => (d, nd)
  | S fuel' =>
      let p := (10 ^ (nd - k))%Z in
      let s1 := (d / p)%Z in
      let s2 := (s1 + 1)%Z in
      let ok1 := rounds_to closed lo hi (s1 * p) in
      let ok2 := rounds_to closed lo hi (s2 * p) in
      let d1 := (d - s1 * p)%Z in
      let d2 := (s2 * p - d)%Z in
      let nearer2 := ((d2 <? d1) || ((d2 =? d1) && Z.even s2))%Z in
      if ok1 && (negb ok2 || negb nearer2) then (s1, nd)
      else if ok2 then
        if (s2 =? 10 ^ k)%Z then (1%Z, (nd + 1)%Z) else (s2, nd)
      else shortest_from fuel' (k + 1)%Z nd d lo hi closed
  end.

Definition shortest (d : Z) : Z * Z :=
  let b := Z.log2 d in
  let ulp := (2 ^ (b - 52))%Z in
  let m := (d / ulp)%Z in
  let hi := (4 * d + 2 * ulp)%Z in
  let lo := if (m =? 2 ^ 52)%Z then (4 * d - ulp)%Z
            else (4 * d - 2 * ulp)%Z in
  let nd := Z.of_nat (String.length (number_to_string d)) in
  shortest_from (Z.to_nat nd) 1 nd d lo hi (Z.even m).

Fixpoint zeros (n : nat) : string :=
  match n with
  | O => ""
  | S n' => String "0" (zeros n')
  end.

(** [Number::toString] of an integer above [2^53]: the digits of [s]
    padded with zeros while [n <= 21], the exponent form beyond. *)
Definition large_to_string (x : Z) : string :=
  let d := to_double x in
  if (2 ^ 1024 <=? d)%Z then "Infinity"
  else
    let '(s, n) := shortest d in
    let ds := number_to_string s in
    let k := Z.of_nat (String.length ds) in
    if (n <=? 21)%Z then ds +:+ zeros (Z.to_nat (n - k))
    else
      match ds with
      | String c EmptyString =>
          String c ("e+" +:+ number_to_string (n - 1))
      | String c r =>
          String c ("." +:+ r +:+ "e+" +:+ number_to_string (n - 1))
      | EmptyString => ""
      end.

(** An integer spliced into a template literal.  Up to [2^53] in
    magnitude these are its decimal digits; beyond, JavaScript prints the
    shortest digits that tell its double from the neighbours, and switches
    to the exponent form from [1e21]. *)
Definition template_number (n : Z) : string :=
  if (Z.abs n <=? 2 ^ 53)%Z then number_to_string n
  else if (n <? 0)%Z then "-" +:+ large_to_string (- n)
  else large_to_string n.

End JS.

(** ** Data of a run *)

(** The event payload parsed from [GITHUB_EVENT_PATH].  The controller reads
    [after], [before] and [repository.owner.login]; the rest of the payload
    is only handed on to collaborators.  A push payload carries [after] and
    [before], other payloads need not: a missing property is [undefined]. *)
Record EventJSON := {
  after : option string;
  before : option string;
  repository_owner_login : string;
  payload : string
}.

(** The REST client, built from [GITHUB_TOKEN] and [GITHUB_API_URL]. *)
Record Octokit := {
  auth : option string;
  baseUrl : option string
}.

(** The response of [GET /users/{username}]: its [data.type] field and its
    JSON rendering, which the controller prints at debug level. *)
Record User := {
  data_type : string;
  user_json : string
}.

Record ScanInfo := {
  headRef : option string;
  baseRef : option string;
  gitleaksPath : string
}.

(** A promise returned by a collaborator settles: it resolves to a value or
    rejects with an error (rendered as a string). *)
Inductive settled (A : Type) : Type :=
| Resolved (a : A)
| Rejected (err : string).
Arguments Resolved {A} a.
Arguments Rejected {A} err.

(** The collaborators, as the controller sees them. *)
Record Collaborators := {
  octokit_request : Octokit -> string -> settled User;
  keygen_ValidateKey : EventJSON -> settled unit;
  gitleaks_Latest : Octokit -> settled string;
  gitleaks_Install : string -> settled string;
  gitleaks_Scan : bool -> ScanInfo -> option string -> settled Z;
  gitleaks_ScanPullRequest :
    bool -> Octokit -> EventJSON -> option string -> settled Z;
  gitleaks_EXIT_CODE_LEAKS_DETECTED : Z;
  summary_Write : Z -> EventJSON -> settled unit
}.

(** Everything a run depends on: [process.env], the event payload and the
    behaviour of the collaborators. *)
Record World := {
  env : gmap string string;
  eventJSON : EventJSON;
  collab : Collaborators
}.

(** ** Observable effects *)

Inductive level := Debug | Info | Warning | Error.

Inductive call :=
| GetUser (o : Octokit) (username : string)
| ValidateKey (ev : EventJSON)
| Latest (o : Octokit)
| Install (version : string)
| Scan (uploadArtifact : bool) (scanInfo : ScanInfo) (eventType : option string)
| ScanPullRequest (uploadArtifact : bool) (o : Octokit) (ev : EventJSON)
    (eventType : option string)
| SummaryWrite (exitCode : Z) (ev : EventJSON).

(** What a run leaves behind, in order: lines logged through
    [@actions/core] and calls made to collaborators. *)
Inductive event :=
| Log (l : level) (msg : string)
| Call (c : call).

(** How a run ends: [start] returned and the process ends on its own, the
    controller called [process.exit], or the promise of [start] rejected
    with nothing to handle the rejection. *)
Inductive status :=
| Completed
| Exited (code : Z)
| Unhandled (err : string).

(** The exit status of the process, where the controller decides it.  A
    run that completes leaves [process.exitCode] as it is, [0] unless a
    collaborator has set it; [process.exit(code)] ends the process with the
    low eight bits of [code], the status a POSIX parent sees; after an
    unhandled rejection the status depends on the version of Node and is
    left open. *)
Definition exit_status (s : status) : option Z :=
  match s with
  | Completed => Some 0%Z
  | Exited code => Some (code mod 256)%Z
  | Unhandled _ => None
  end.

(** ** A monad for the body of an async function

    A computation appends to the trace and either goes on with a value or
    stops the function: [process.exit] and a rejected [await] both do. *)

Inductive outcome (A : Type) : Type :=
| Continue (a : A)
| Stop (s : status).
Arguments Continue {A} a.
Arguments Stop {A} s.

Definition M (A : Type) : Type := (list event * outcome A)%type.

Definition ret {A} (a : A) : M A := ([], Continue a).

Definition bind {A B} (m : M A) (k : A -> M B) : M B :=
  match m with
  | (t, Continue a) => let '(t', r) := k a in (t ++ t', r)
  | (t, Stop s) => (t, Stop s)
  end.

Notation "'let*' x ':=' m 'in' k" := (bind m (fun x => k))
  (at level 10, x name, m at level 100, k at level 200).
Notation "m ';;' k" := (bind m (fun _ => k))
  (at level 100, k at level 200, right associativity).

Definition log (l : level) (msg : string) : M unit :=
  ([Log l msg], Continue tt).

Definition process_exit {A} (code : Z) : M A := ([], Stop (Exited code)).

(** [await c]: the call is made, and the function goes on with the value
    the promise resolves to, or stops if it rejects. *)
Definition await {A} (c : call) (p : settled A) : M A :=
  ([Call c],
   match p with
   | Resolved a => Continue a
   | Rejected err => Stop (Unhandled err)
   end).

Definition when (b : bool) (m : M unit) : M unit := if b then m else ret tt.

(** [p.catch(h)]: a rejection of [p] is handed to [h]; anything else
    passes through. *)
Definition promise_catch {A} (p : M A) (h : string -> M A) : M A :=
  match p with
  | (t, Stop (Unhandled err)) => let '(t', r) := h err in (t ++ t', r)
  | _ => p
  end.

Definition trace {A} (m : M A) : list event := fst m.

Definition final (m : M unit) : status :=
  match snd m with
  | Continue _ => Completed
  | Stop s => s
  end.

(** ** The controller *)

Section Controller.

Variable w : World.

Definition process_env (name : string) : option string := env w !! name.

(** Lines 13-29: each flag starts [true] and is cleared when its variable
    is loosely equal to ["false"] or to [0]. *)
Definition gitleaksEnableSummary : bool :=
  if JS.loose_eq_string (process_env "GITLEAKS_ENABLE_SUMMARY") "false"
     || JS.loose_eq_zero (process_env "GITLEAKS_ENABLE_SUMMARY")
  then false else true.

Definition gitleaksEnableUploadArtifact : bool :=
  if JS.loose_eq_string (process_env "GITLEAKS_ENABLE_UPLOAD_ARTIFACT") "false"
     || JS.loose_eq_zero (process_env "GITLEAKS_ENABLE_UPLOAD_ARTIFACT")
  then false else true.

Definition startup : M unit :=
  when (negb gitleaksEnableSummary)
    (log Debug "Disabling GitHub Actions Summary.") ;;
  when (negb gitleaksEnableUploadArtifact)
    (log Debug "Disabling uploading of results.sarif artifact.").

Definition eventType : option string := process_env "GITHUB_EVENT_NAME".

Definition githubUsername : string := repository_owner_login (eventJSON w).

Definition octokit : Octokit :=
  {| auth := process_env "GITHUB_TOKEN";
     baseUrl := process_env "GITHUB_API_URL" |}.

(** Lines 54-75, the [then] handler of the lookup.  The global
    [shouldValidate] starts [true] and only this handler assigns it; the
    handler returns the value the variable holds afterwards. *)
Definition on_user (user : User) : M bool :=
  let githubUserType := data_type user in
  if String.eqb githubUserType "Organization" then
    log Info ("[" +:+ githubUsername
              +:+ "] is an organization. License key is required.") ;;
    ret true
  else if String.eqb githubUserType "User" then
    log Info ("[" +:+ githubUsername
              +:+ "] is an individual user. No license key is required.") ;;
    ret false
  else
    log Warning ("[" +:+ githubUsername +:+ "] is an unexpected type ["
                 +:+ githubUserType
                 +:+ "]. License key validation will be enforced 🤷.") ;;
    log Debug ("GitHub GET user API returned [" +:+ user_json user +:+ "]") ;;
    ret true.

(** Lines 76-80, the [catch] handler: [shouldValidate] keeps its value. *)
Definition on_error (err : string) : M bool :=
  log Warning ("Get user [" +:+ githubUsername +:+ "] failed with error ["
               +:+ err
               +:+ "]. License key validation will be enforced 🤷.") ;;
  ret true.

(** Lines 50-80: [octokit.request(...).then(on_user).catch(on_error)]. *)
Definition lookup : M bool :=
  promise_catch
    (let* user :=
       await (GetUser octokit githubUsername)
         (octokit_request (collab w) octokit githubUsername) in
     on_user user)
    on_error.

Definition supportedEvents : list string :=
  ["push"; "pull_request"; "workflow_dispatch"].

(** [Array.prototype.includes] on an array of strings, for a string or
    [undefined]. *)
Definition includes (l : list string) (v : option string) : bool :=
  match v with
  | Some s => existsb (String.eqb s) l
  | None => false
  end.

(** [v === "..."] for a string or [undefined]. *)
Definition strict_eq (v : option string) (s : string) : bool :=
  match v with
  | Some x => String.eqb x s
  | None => false
  end.

(** Lines 97-102. *)
Definition check_event : M unit :=
  when (negb (includes supportedEvents eventType))
    (log Error ("ERROR: The [" +:+ JS.to_string eventType
                +:+ "] event is not yet supported") ;;
     process_exit 1).

(** Lines 104-107. *)
Definition validate (shouldValidate : bool) : M unit :=
  when shouldValidate
    (await (ValidateKey (eventJSON w))
       (keygen_ValidateKey (collab w) (eventJSON w))).

(** Lines 113-124: the engine version, its installation, and the default
    [scanInfo]. *)
Definition install : M ScanInfo :=
  let* gitleaksVersion :=
    if JS.truthy (process_env "GITLEAKS_VERSION")
    then ret (JS.to_string (process_env "GITLEAKS_VERSION"))
    else await (Latest octokit) (gitleaks_Latest (collab w) octokit) in
  log Info ("gitleaks version: " +:+ gitleaksVersion) ;;
  let* gitleaksPath :=
    await (Install gitleaksVersion)
      (gitleaks_Install (collab w) gitleaksVersion) in
  ret {| headRef := after (eventJSON w);
         baseRef := before (eventJSON w);
         gitleaksPath := gitleaksPath |}.

(** Lines 126-147: the scan chosen by the event type; [exitCode] keeps the
    value it had when no branch is taken. *)
Definition dispatch (scanInfo : ScanInfo) (exitCode : Z) : M Z :=
  log Info ("event type: " +:+ JS.to_string eventType) ;;
  if strict_eq eventType "push" then
    await (Scan gitleaksEnableUploadArtifact scanInfo eventType)
      (gitleaks_Scan (collab w) gitleaksEnableUploadArtifact scanInfo
         eventType)
  else if strict_eq eventType "workflow_dispatch" then
    await (Scan gitleaksEnableUploadArtifact scanInfo eventType)
      (gitleaks_Scan (collab w) gitleaksEnableUploadArtifact scanInfo
         eventType)
  else if strict_eq eventType "pull_request" then
    await
      (ScanPullRequest gitleaksEnableUploadArtifact octokit (eventJSON w)
         eventType)
      (gitleaks_ScanPullRequest (collab w) gitleaksEnableUploadArtifact
         octokit (eventJSON w) eventType)
  else ret exitCode.

(** Lines 149-152. *)
Definition report (exitCode : Z) : M unit :=
  when gitleaksEnableSummary
    (await (SummaryWrite exitCode (eventJSON w))
       (summary_Write (collab w) exitCode (eventJSON w))).

(** Lines 154-162. *)
Definition interpret (exitCode : Z) : M unit :=
  if (exitCode =? 0)%Z then
    log Info "✅ No leaks detected"
  else if (exitCode =? gitleaks_EXIT_CODE_LEAKS_DETECTED (collab w))%Z then
    log Warning "🛑 Leaks detected, see job summary for details" ;;
    process_exit 1
  else
    log Error ("ERROR: Unexpected exit code ["
               +:+ JS.template_number exitCode +:+ "]") ;;
    process_exit exitCode.

(** Lines 96-163, the body of [start] in the order of its statements. *)
Definition start (shouldValidate : bool) : M unit :=
  check_event ;;
  validate shouldValidate ;;
  let exitCode := 0%Z in
  let* scanInfo := install in
  let* exitCode := dispatch scanInfo exitCode in
  report exitCode ;;
  interpret exitCode.

(** Lines 82-88: the license check of the [finally] handler. *)
Definition missing_license : string :=
  "🛑 missing gitleaks license. Go grab one at gitleaks.io and store it as a GitHub Secret named GITLEAKS_LICENSE. For more info about the recent breaking update, see [here](https://github.com/gitleaks/gitleaks-action#-announcement).".

Definition license_check (shouldValidate : bool) : M unit :=
  when (shouldValidate && negb (JS.truthy (process_env "GITLEAKS_LICENSE")))
    (log Error missing_license ;;
     process_exit 1).

(** Lines 81-92, the [finally] handler; the promise of [start] is dropped. *)
Definition finally (shouldValidate : bool) : M unit :=
  license_check shouldValidate ;;
  start shouldValidate.

(** The whole script, from its first line to the end of the process. *)
Definition run : M unit :=
  startup ;;
  let* shouldValidate := lookup in
  finally shouldValidate.

End Controller.

(** ** Reading a trace *)

(** The calls of a trace, in the order they were made. *)
Fixpoint calls (t : list event) : list call :=
  match t with
  | [] => []
  | Call c :: t' => c :: calls t'
  | Log _ _ :: t' => calls t'
  end.

Definition is_scan (c : call) : bool :=
  match c with
  | Scan _ _ _ | ScanPullRequest _ _ _ _ => true
  | _ => false
  end.

Definition is_summary_write (c : call) : bool :=
  match c with
  | SummaryWrite _ _ => true
  | _ => false
  end.

Definition is_validate (c : call) : bool :=
  match c with
  | ValidateKey _ => true
  | _ => false
  end.

(** The calls a run makes before it reaches the scan. *)
Definition is_early (c : call) : bool :=
  match c with
  | GetUser _ _ | ValidateKey _ | Latest _ | Install _ => true
  | _ => false
  end.

Definition count (p : call -> bool) (t : list event) : nat :=
  length (List.filter p (calls t)).

(** A line logged below error level. *)
Definition soft_log (e : event) : Prop :=
  exists l msg, e = Log l msg /\ l <> Error.

(** What the scan executor answers to a call made to it. *)
Definition answer (w : World) (c : call) : option (settled Z) :=
  match c with
  | Scan up si et => Some (gitleaks_Scan (collab w) up si et)
  | ScanPullRequest up o ev et =>
      Some (gitleaks_ScanPullRequest (collab w) up o ev et)
  | _ => None
  end.

(** The run called the scan executor, and the call returned [e]. *)
Definition scan_returned (w : World) (e : Z) : Prop :=
  exists c, In (Call c) (trace (run w)) /\ answer w c = Some (Resolved e).

(** The run called the scan executor, and the call threw [err]. *)
Definition scan_threw (w : World) (err : string) : Prop :=
  exists c, In (Call c) (trace (run w)) /\ answer w c = Some (Rejected err).

(** ** The classification of the owner

    The controller keeps no classification value: the three cases are the
    three ways the lookup can go, told apart here in the words of the
    design. *)
Inductive ActorClassification := Individual | Organization | Unknown.

Definition classify (r : settled User) : ActorClassification :=
  match r with
  | Resolved user =>
      if String.eqb (data_type user) "Organization" then Organization
      else if String.eqb (data_type user) "User" then Individual
      else Unknown
  | Rejected _ => Unknown
  end.

Definition classification (w : World) : ActorClassification :=
  classify (octokit_request (collab w) (octokit w) (githubUsername w)).

(** ** The stages of a run *)

(** The part of a run before the scan stage, and the scan stage itself:
    [run] is the first followed by the second (lemma [run_split]). *)
Definition front (w : World) : M ScanInfo :=
  startup w ;;
  let* shouldValidate := lookup w in
  license_check w shouldValidate ;;
  check_event w ;;
  validate w shouldValidate ;;
  install w.

Definition scan_stage (w : World) (scanInfo : ScanInfo) : M unit :=
  let* exitCode := dispatch w scanInfo 0 in
  report w exitCode ;;
  interpret w exitCode.

(** What follows the call of the scan executor, by what the call answers:
    the report and the interpretation of the exit code it returned, or the
    rejection of [start] with the error it threw. *)
Definition after_scan (w : World) (r : settled Z) : M unit :=
  match r with
  | Resolved exitCode => report w exitCode ;; interpret w exitCode
  | Rejected err => ([], Stop (Unhandled err))
  end.

(** The value the global [shouldValidate] holds once the lookup has
    settled (lemma [lookup_continues]). *)
Definition shouldValidate (w : World) : bool :=
  match classify (octokit_request (collab w) (octokit w) (githubUsername w))
  with
  | Individual => false
  | _ => true
  end.

(** The part of [front] that follows the lookup. *)
Definition gated (w : World) : M ScanInfo :=
  license_check w (shouldValidate w) ;;
  check_event w ;;
  validate w (shouldValidate w) ;;
  install w.


(** ** Sample worlds *)

Module Sample.

Definition push_event : EventJSON :=
  {| after := Some "4f2a9c1";
     before := Some "9be01d7";
     repository_owner_login := "acme";
     payload := "{}" |}.

Definition user (type : string) : settled User :=
  Resolved {| data_type := type; user_json := "{}" |}.

(** Collaborators that all succeed; the owner lookup answers [u], both
    scans answer [sc], and the leak sentinel is [2]. *)
Definition collaborators (u : settled User) (sc : settled Z) : Collaborators :=
  {| octokit_request := fun _ _ => u;
     keygen_ValidateKey := fun _ => Resolved tt;
     gitleaks_Latest := fun _ => Resolved "v8.18.2";
     gitleaks_Install := fun v => Resolved ("/tmp/gitleaks-" +:+ v);
     gitleaks_Scan := fun _ _ _ => sc;
     gitleaks_ScanPullRequest := fun _ _ _ _ => sc;
     gitleaks_EXIT_CODE_LEAKS_DETECTED := 2;
     summary_Write := fun _ _ => Resolved tt |}.

Definition world (vars : list (string * string)) (u : settled User)
    (sc : settled Z) : World :=
  {| env := list_to_map vars;
     eventJSON := push_event;
     collab := collaborators u sc |}.

(** An organization without a license, on an event that is not supported. *)
Definition org_no_license : World :=
  world [("GITHUB_EVENT_NAME", "issues")] (user "Organization") (Resolved 0%Z).

(** An individual owner, an event that is not supported. *)
Definition user_issues : World :=
  world [("GITHUB_EVENT_NAME", "issues")] (user "User") (Resolved 0%Z).

(** An individual owner, a push, the scan finds leaks. *)
Definition user_push_leaks : World :=
  world [("GITHUB_EVENT_NAME", "push")] (user "User") (Resolved 2%Z).

(** An individual owner, a push, a clean scan, the summary switched off. *)
Definition user_push_no_summary : World :=
  world [("GITHUB_EVENT_NAME", "push"); ("GITLEAKS_ENABLE_SUMMARY", "false")]
    (user "User") (Resolved 0%Z).

(** An individual owner, a push, the scan fails with exit code [17]. *)
Definition user_push_error : World :=
  world [("GITHUB_EVENT_NAME", "push")] (user "User") (Resolved 17%Z).

(** An individual owner, a push, the scan executor throws. *)
Definition user_push_throws : World :=
  world [("GITHUB_EVENT_NAME", "push")] (user "User")
    (Rejected "Error: spawn gitleaks ENOENT").

(** A licensed organization, a pull request, a clean scan. *)
Definition org_licensed : World :=
  world [("GITHUB_EVENT_NAME", "pull_request"); ("GITLEAKS_LICENSE", "key")]
    (user "Organization") (Resolved 0%Z).

End Sample.

(** ** The claims of the design that the controller does not meet, as the
    design states them *)

(** The gate failure, the unsupported event and the detection of leaks end
    the process with three different exit codes, the first two are not [0]
    and neither is [1]. *)
Definition exit_codes_distinguishable : Prop :=
  forall w sv c_gate c_event c_leaks,
    snd (license_check w sv) = Stop (Exited c_gate) ->
    includes supportedEvents (eventType w) = false ->
    snd (check_event w) = Stop (Exited c_event) ->
    snd (interpret w (gitleaks_EXIT_CODE_LEAKS_DETECTED (collab w)))
      = Stop (Exited c_leaks) ->
    c_gate <> 0%Z /\ c_event <> 0%Z /\ c_gate <> 1%Z /\ c_event <> 1%Z
    /\ c_gate <> c_leaks /\ c_event <> c_leaks /\ c_gate <> c_event.

(** Whatever code other than [0] and the sentinel the scan executor
    returns, the process ends with that code as its exit status. *)
Definition raw_code_is_exit_status : Prop :=
  forall w e,
    gitleaks_EXIT_CODE_LEAKS_DETECTED (collab w) <> 0%Z ->
    e <> 0%Z -> e <> gitleaks_EXIT_CODE_LEAKS_DETECTED (collab w) ->
    exit_status (final (interpret w e)) = Some e.

(** A run stopped for a missing license exits with a code of its own: every
    run that exits with that code was stopped by the license check. *)
Definition license_exit_dedicated : Prop :=
  forall w,
    classification w = Organization \/ classification w = Unknown ->
    process_env w "GITLEAKS_LICENSE" = None
    \/ process_env w "GITLEAKS_LICENSE" = Some "" ->
    exists code,
      final (run w) = Exited code
      /\ forall w', final (run w') = Exited code ->
                    exists t, trace (run w') = t ++ [Log Error missing_license].

(** A run that calls the scan executor calls the summary writer exactly
    once. *)
Definition reporter_exactly_once : Prop :=
  forall w, 1 <= count is_scan (trace (run w)) ->
            count is_summary_write (trace (run w)) = 1.

(** A run whose scan executor throws still reaches the report (the summary
    is written when it is enabled) and the exit-code step (the controller
    ends the process with an exit code). *)
Definition scan_failure_caught : Prop :=
  forall w err,
    scan_threw w err ->
    (gitleaksEnableSummary w = true ->
     1 <= count is_summary_write (trace (run w)))
    /\ exists code, final (run w) = Exited code.

(** ** Stages, rejections and the end of a run *)

Definition is_latest (c : call) : bool :=
  match c with
  | Latest _ => true
  | _ => false
  end.

(** The place of a call in the script: the owner lookup, the key
    validation, the two steps of the engine resolution, the scan, the
    summary. *)
Definition stage (c : call) : nat :=
  match c with
  | GetUser _ _ => 0
  | ValidateKey _ => 1
  | Latest _ => 2
  | Install _ => 3
  | Scan _ _ _ | ScanPullRequest _ _ _ _ => 4
  | SummaryWrite _ _ => 5
  end.

(** The stages of [l] increase strictly, starting no lower than [lo]. *)
Fixpoint increasing (lo : nat) (l : list call) : bool :=
  match l with
  | [] => true
  | c :: l' => (lo <=? stage c) && increasing (S (stage c)) l'
  end.

Definition rejection {A} (p : settled A) : option string :=
  match p with
  | Resolved _ => None
  | Rejected err => Some err
  end.

(** The error a collaborator throws when called as [c], if it throws. *)
Definition response_error (w : World) (c : call) : option string :=
  match c with
  | GetUser o username => rejection (octokit_request (collab w) o username)
  | ValidateKey ev => rejection (keygen_ValidateKey (collab w) ev)
  | Latest o => rejection (gitleaks_Latest (collab w) o)
  | Install version => rejection (gitleaks_Install (collab w) version)
  | Scan up si et => rejection (gitleaks_Scan (collab w) up si et)
  | ScanPullRequest up o ev et =>
      rejection (gitleaks_ScanPullRequest (collab w) up o ev et)
  | SummaryWrite e ev => rejection (summary_Write (collab w) e ev)
  end.

(** A computation that stops does so in one of two ways: it exits with a
    code other than [0] right after a line logged at error or warning
    level, or it is rejected right after a call, other than the owner
    lookup, that threw the error it is rejected with. *)
Definition ends_well (w : World) {A} (m : M A) : Prop :=
  match snd m with
  | Continue _ => True
  | Stop Completed => False
  | Stop (Exited code) =>
      code <> 0%Z
      /\ exists t l msg,
          trace m = t ++ [Log l msg] /\ (l = Error \/ l = Warning)
  | Stop (Unhandled err) =>
      exists t c,
        trace m = t ++ [Call c] /\ response_error w c = Some err
        /\ stage c <> 0
  end.

(** A call, other than the owner lookup, that throws is the last thing the
    computation does, and rejects it. *)
Definition rejection_final (w : World) {A} (m : M A) : Prop :=
  forall c err,
    In (Call c) (trace m) -> stage c <> 0 ->
    response_error w c = Some err ->
    snd m = Stop (Unhandled err) /\ exists t, trace m = t ++ [Call c].

(** More sample worlds. *)
Module Worlds.

(** An organization without a license pushes. *)
Definition org_push_no_license : World :=
  Sample.world [("GITHUB_EVENT_NAME", "push")] (Sample.user "Organization")
    (Resolved 0%Z).

(** An individual owner pushes, with the engine version pinned. *)
Definition pinned_version : World :=
  Sample.world
    [("GITHUB_EVENT_NAME", "push"); ("GITLEAKS_VERSION", "8.16.1")]
    (Sample.user "User") (Resolved 0%Z).

(** The scan call of that run. *)
Definition pinned_scan : call :=
  Scan true
    {| headRef := Some "4f2a9c1";
       baseRef := Some "9be01d7";
       gitleaksPath := "/tmp/gitleaks-8.16.1" |}
    (Some "push").

(** The summary switched off by a blank value. *)
Definition blank_summary : World :=
  Sample.world
    [("GITHUB_EVENT_NAME", "push"); ("GITLEAKS_ENABLE_SUMMARY", "  ")]
    (Sample.user "User") (Resolved 0%Z).

(** The owner is an organization; the key validation answers [key], the
    installation [inst], the summary writer [wr] and both scans [sc]. *)
Definition collaborators (key : settled unit) (inst : settled string)
    (wr : settled unit) (sc : settled Z) : Collaborators :=
  {| octokit_request := fun _ _ => Sample.user "Organization";
     keygen_ValidateKey := fun _ => key;
     gitleaks_Latest := fun _ => Resolved "v8.18.2";
     gitleaks_Install := fun _ => inst;
     gitleaks_Scan := fun _ _ _ => sc;
     gitleaks_ScanPullRequest := fun _ _ _ _ => sc;
     gitleaks_EXIT_CODE_LEAKS_DETECTED := 2;
     summary_Write := fun _ _ => wr |}.

Definition world (vars : list (string * string)) (key : settled unit)
    (inst : settled string) (wr : settled unit) (sc : settled Z) : World :=
  {| env := list_to_map vars;
     eventJSON := Sample.push_event;
     collab := collaborators key inst wr sc |}.

Definition licensed_push : list (string * string) :=
  [("GITHUB_EVENT_NAME", "push"); ("GITLEAKS_LICENSE", "key")].

(** Leaks are found, and the summary cannot be written. *)
Definition summary_fails : World :=
  world licensed_push (Resolved tt) (Resolved "/tmp/gitleaks")
    (Rejected "Error: EACCES") (Resolved 2%Z).

(** The engine cannot be installed. *)
Definition install_fails : World :=
  world licensed_push (Resolved tt) (Rejected "Error: 404")
    (Resolved tt) (Resolved 0%Z).

(** The key is refused. *)
Definition key_refused : World :=
  world licensed_push (Rejected "Error: invalid key")
    (Resolved "/tmp/gitleaks") (Resolved tt) (Resolved 0%Z).

End Worlds.

(** ** Laws of the monad and of traces *)

Lemma bind_assoc {A B C} (m : M A) (f : A -> M B) (g : B -> M C) :
  bind (bind m f) g = bind m (fun a => bind (f a) g).
Proof.
  destruct m as [t [a | s]]; simpl; [| reflexivity].
  destruct (f a) as [t1 [b | s1]]; simpl; [| reflexivity].
  destruct (g b) as [t2 r2]. now rewrite app_assoc.
Qed.

Lemma trace_bind {A B} (m : M A) (k : A -> M B) :
  trace (bind m k)
  = trace m ++ match snd m with
               | Continue a => trace (k a)
               | Stop _ => []
               end.
Proof.
  destruct m as [t [a | s]]; simpl.
  - now destruct (k a).
  - now rewrite app_nil_r.
Qed.

Lemma outcome_bind {A B} (m : M A) (k : A -> M B) :
  snd (bind m k) = match snd m with
                   | Continue a => snd (k a)
                   | Stop s => Stop s
                   end.
Proof.
  destruct m as [t [a | s]]; simpl; [| reflexivity]. now destruct (k a).
Qed.

Lemma calls_app (t1 t2 : list event) : calls (t1 ++ t2) = calls t1 ++ calls t2.
Proof.
  induction t1 as [| [l msg | c] t1 IH]; simpl; [reflexivity | exact IH |].
  now rewrite IH.
Qed.

Lemma count_app p (t1 t2 : list event) :
  count p (t1 ++ t2) = count p t1 + count p t2.
Proof. unfold count. now rewrite calls_app, List.filter_app, length_app. Qed.

Lemma count_bind {A B} p (m : M A) (k : A -> M B) :
  count p (trace (bind m k))
  = count p (trace m) + match snd m with
                        | Continue a => count p (trace (k a))
                        | Stop _ => 0
                        end.
Proof.
  rewrite trace_bind, count_app. now destruct (snd m).
Qed.

Lemma In_calls (c : call) (t : list event) : In (Call c) t <-> In c (calls t).
Proof.
  induction t as [| [l msg | c'] t IH]; simpl.
  - tauto.
  - split; [intros [H | H]; [discriminate | now apply IH] |].
    intros H. right. now apply IH.
  - rewrite IH. split; (intros [H | H]; [left; congruence | right; exact H]).
Qed.

(** A call that a trace does not count is not of the counted kind. *)
Lemma count_0_In p (t : list event) (c : call) :
  count p t = 0 -> In (Call c) t -> p c = false.
Proof.
  unfold count. intros H Hin. apply In_calls in Hin.
  destruct (p c) eqn:E; [| reflexivity].
  assert (Hf : In c (List.filter p (calls t))) by (apply List.filter_In; auto).
  destruct (List.filter p (calls t)); [destruct Hf | discriminate].
Qed.

Lemma append_char_cancel (a b : string) (c : ascii) :
  a +:+ String c "" = b +:+ String c "" -> a = b.
Proof.
  revert b. induction a as [| x a IH]; intros [| y b]; simpl; intros H.
  - reflexivity.
  - injection H as _ H. destruct b; discriminate.
  - injection H as _ H. destruct a; discriminate.
  - injection H as -> H. f_equal. now apply IH.
Qed.

(** The digits printed for an exit code determine it. *)
Lemma number_to_string_inj (a b : Z) :
  JS.number_to_string a = JS.number_to_string b -> a = b.
Proof.
  unfold JS.number_to_string. intros H.
  apply (f_equal NilEmpty.int_of_string) in H.
  rewrite !NilEmpty.isi in H. injection H as H.
  apply (f_equal Z.of_int) in H. now rewrite !DecimalZ.of_to in H.
Qed.

Lemma answered_is_scan w c r : answer w c = Some r -> is_scan c = true.
Proof. destruct c; simpl; intros H; try discriminate; reflexivity. Qed.

(** ** The blocks of the controller *)

Section Blocks.

Variable w : World.

Lemma includes_supported (v : option string) :
  includes supportedEvents v = true
  <-> v = Some "push" \/ v = Some "pull_request"
      \/ v = Some "workflow_dispatch".
Proof.
  destruct v as [s |]; simpl.
  - rewrite !orb_true_iff, !String.eqb_eq. split.
    + intros [H | [H | [H | H]]]; subst; auto. discriminate.
    + intros [H | [H | H]]; injection H as ->; auto.
  - split; [discriminate | intros [H | [H | H]]; discriminate].
Qed.

Lemma startup_continues :
  snd (startup w) = Continue tt /\ calls (trace (startup w)) = [].
Proof.
  unfold startup.
  destruct (gitleaksEnableSummary w), (gitleaksEnableUploadArtifact w);
    split; reflexivity.
Qed.

(** The lookup makes one call, logs, and hands on [shouldValidate], which
    is [false] for an individual owner only. *)
Lemma lookup_continues :
  snd (lookup w) = Continue (shouldValidate w)
  /\ calls (trace (lookup w)) = [GetUser (octokit w) (githubUsername w)].
Proof.
  unfold lookup, shouldValidate, classify.
  destruct (octokit_request (collab w) (octokit w) (githubUsername w))
    as [user | err]; simpl.
  - unfold on_user.
    destruct (String.eqb (data_type user) "Organization");
      [split; reflexivity |].
    destruct (String.eqb (data_type user) "User"); split; reflexivity.
  - split; reflexivity.
Qed.

Lemma license_check_cases sv :
  (sv = true /\ JS.truthy (process_env w "GITLEAKS_LICENSE") = false
   /\ snd (license_check w sv) = Stop (Exited 1)
   /\ calls (trace (license_check w sv)) = [])
  \/ ((sv = false \/ JS.truthy (process_env w "GITLEAKS_LICENSE") = true)
      /\ license_check w sv = ([], Continue tt)).
Proof.
  unfold license_check.
  destruct sv; simpl; [| right; auto].
  destruct (JS.truthy (process_env w "GITLEAKS_LICENSE")); simpl.
  - right. auto.
  - left. auto.
Qed.

Lemma check_event_cases :
  (includes supportedEvents (eventType w) = false
   /\ snd (check_event w) = Stop (Exited 1)
   /\ calls (trace (check_event w)) = [])
  \/ (includes supportedEvents (eventType w) = true
      /\ check_event w = ([], Continue tt)).
Proof.
  unfold check_event.
  destruct (includes supportedEvents (eventType w)); simpl; auto.
Qed.

Lemma validate_early sv :
  forallb is_early (calls (trace (validate w sv))) = true.
Proof.
  unfold validate. destruct sv; simpl; reflexivity.
Qed.

Lemma install_early :
  forallb is_early (calls (trace (install w))) = true.
Proof.
  unfold install.
  destruct (JS.truthy (process_env w "GITLEAKS_VERSION")); simpl.
  - destruct (gitleaks_Install _ _); reflexivity.
  - destruct (gitleaks_Latest _ _); simpl; [| reflexivity].
    destruct (gitleaks_Install _ _); reflexivity.
Qed.

Lemma install_refs si :
  snd (install w) = Continue si ->
  headRef si = after (eventJSON w) /\ baseRef si = before (eventJSON w).
Proof.
  unfold install.
  destruct (JS.truthy (process_env w "GITLEAKS_VERSION")); simpl.
  - destruct (gitleaks_Install _ _); simpl; intros H; [| discriminate].
    injection H as <-. auto.
  - destruct (gitleaks_Latest _ _); simpl; [| discriminate].
    destruct (gitleaks_Install _ _); simpl; intros H; [| discriminate].
    injection H as <-. auto.
Qed.

End Blocks.

(** ** The shape of a run *)

Section Shape.

Variable w : World.

Lemma run_split : run w = bind (front w) (scan_stage w).
Proof.
  unfold run, front, finally, start.
  destruct (startup w) as [t0 [[] | s0]]; simpl; [| reflexivity].
  destruct (lookup w) as [t1 [sv | s1]]; simpl; [| reflexivity].
  destruct (license_check w sv) as [t2 [[] | s2]]; simpl; [| reflexivity].
  destruct (check_event w) as [t3 [[] | s3]]; simpl; [| reflexivity].
  destruct (validate w sv) as [t4 [[] | s4]]; simpl; [| reflexivity].
  destruct (install w) as [t5 [si | s5]]; simpl; [| reflexivity].
  destruct (scan_stage w si) as [t6 r6] eqn:E6. unfold scan_stage in E6.
  rewrite E6. simpl. now rewrite <- !app_assoc.
Qed.

Lemma front_trace :
  trace (front w) = trace (startup w) ++ trace (lookup w) ++ trace (gated w).
Proof.
  unfold front.
  destruct (startup_continues w) as [Hs _].
  destruct (lookup_continues w) as [Hl _].
  now rewrite !trace_bind, Hs, Hl.
Qed.

Lemma front_gated :
  calls (trace (front w))
  = GetUser (octokit w) (githubUsername w) :: calls (trace (gated w))
  /\ snd (front w) = snd (gated w).
Proof.
  unfold front.
  destruct (startup_continues w) as [Hs Hsc].
  destruct (lookup_continues w) as [Hl Hlc].
  rewrite !trace_bind, !outcome_bind, Hs, Hl, !calls_app, Hsc, Hlc.
  split; reflexivity.
Qed.

Lemma gated_early : forallb is_early (calls (trace (gated w))) = true.
Proof.
  unfold gated. rewrite trace_bind, calls_app, forallb_app.
  destruct (license_check_cases w (shouldValidate w))
    as [(_ & _ & -> & ->) | [_ ->]]; [reflexivity |]. simpl.
  rewrite trace_bind, calls_app, forallb_app.
  destruct (check_event_cases w) as [(_ & -> & ->) | [_ ->]];
    [reflexivity |]. simpl.
  rewrite trace_bind, calls_app, forallb_app, validate_early. simpl.
  destruct (snd (validate w (shouldValidate w))); [| reflexivity].
  apply install_early.
Qed.

Lemma front_early : forallb is_early (calls (trace (front w))) = true.
Proof.
  destruct front_gated as [-> _]. simpl. apply gated_early.
Qed.

(** No scan and no summary before the scan stage. *)
Lemma front_quiet :
  count is_scan (trace (front w)) = 0
  /\ count is_summary_write (trace (front w)) = 0.
Proof.
  pose proof front_early as H. unfold count.
  rewrite forallb_forall in H.
  split; (destruct (List.filter _ _) as [| c l] eqn:E; [reflexivity |]);
    (assert (Hc : In c (c :: l)) by (now left));
    rewrite <- E in Hc; apply List.filter_In in Hc as [Hc Hp];
    apply H in Hc; destruct c; discriminate.
Qed.

(** When the front goes on, the gate was open, the event is supported and
    the scan information carries the refs of the payload. *)
Lemma front_goes_on si :
  snd (front w) = Continue si ->
  (shouldValidate w = false
   \/ JS.truthy (process_env w "GITLEAKS_LICENSE") = true)
  /\ includes supportedEvents (eventType w) = true
  /\ headRef si = after (eventJSON w) /\ baseRef si = before (eventJSON w).
Proof.
  destruct front_gated as [_ ->]. unfold gated. rewrite !outcome_bind.
  destruct (license_check_cases w (shouldValidate w))
    as [(_ & _ & -> & _) | [Hg ->]]; [discriminate |]. simpl.
  destruct (check_event_cases w) as [(_ & -> & _) | [He ->]];
    [discriminate |]. simpl.
  destruct (snd (validate w (shouldValidate w))); [| discriminate].
  intros H. apply install_refs in H. tauto.
Qed.

(** The scan stage of a supported event: one line of log, one call of the
    scan executor, and what follows its answer. *)
Lemma scan_stage_shape si :
  includes supportedEvents (eventType w) = true ->
  exists c r,
    answer w c = Some r
    /\ scan_stage w si
       = (Log Info ("event type: " +:+ JS.to_string (eventType w))
            :: Call c :: trace (after_scan w r),
          snd (after_scan w r)).
Proof.
  intros H. apply includes_supported in H.
  unfold scan_stage, dispatch.
  destruct H as [H | [H | H]]; rewrite H;
    cbn [strict_eq String.eqb Ascii.eqb Bool.eqb];
    match goal with
    | |- context [await ?c ?p] =>
        exists c, p; split; [reflexivity |]; destruct p as [e | err]
    end; simpl; try reflexivity;
    destruct (bind (report w e) (fun _ => interpret w e)); reflexivity.
Qed.

(** A run either stops before the scan stage, having made early calls only,
    or makes exactly one call to the scan executor and goes on as the
    answer says. *)
Lemma run_shape :
  (exists s, snd (front w) = Stop s
             /\ run w = (trace (front w), Stop s))
  \/ (exists c r,
        answer w c = Some r
        /\ includes supportedEvents (eventType w) = true
        /\ run w
           = (trace (front w)
                ++ Log Info ("event type: " +:+ JS.to_string (eventType w))
                :: Call c :: trace (after_scan w r),
              snd (after_scan w r))).
Proof.
  rewrite run_split.
  destruct (front w) as [t [si | s]] eqn:E; simpl.
  - right.
    assert (Hs : snd (front w) = Continue si) by now rewrite E.
    apply front_goes_on in Hs as (_ & He & _).
    destruct (scan_stage_shape si He) as (c & r & Hc & ->).
    exists c, r. auto.
  - left. exists s. auto.
Qed.

End Shape.

(** ** After the scan *)

Section AfterScan.

Variable w : World.

Lemma interpret_calls e : calls (trace (interpret w e)) = [].
Proof.
  unfold interpret.
  destruct (e =? 0)%Z; [reflexivity |].
  destruct (e =? gitleaks_EXIT_CODE_LEAKS_DETECTED (collab w))%Z; reflexivity.
Qed.

Lemma after_scan_calls r :
  calls (trace (after_scan w r))
  = match r with
    | Resolved e =>
        if gitleaksEnableSummary w then [SummaryWrite e (eventJSON w)] else []
    | Rejected _ => []
    end.
Proof.
  destruct r as [e | err]; [| reflexivity].
  unfold after_scan, report. rewrite trace_bind, calls_app.
  destruct (gitleaksEnableSummary w); simpl.
  - destruct (summary_Write (collab w) e (eventJSON w)); simpl;
      [| reflexivity].
    now rewrite interpret_calls.
  - apply interpret_calls.
Qed.

(** Once the report is through, the run ends as the interpretation of the
    exit code says. *)
Lemma after_scan_interpret e :
  gitleaksEnableSummary w = false
  \/ summary_Write (collab w) e (eventJSON w) = Resolved tt ->
  exists t, after_scan w (Resolved e)
            = (t ++ trace (interpret w e), snd (interpret w e)).
Proof.
  unfold after_scan, report. intros [H | H].
  - rewrite H. simpl. exists []. now destruct (interpret w e).
  - destruct (gitleaksEnableSummary w); simpl.
    + rewrite H. simpl. exists [Call (SummaryWrite e (eventJSON w))].
      now destruct (interpret w e).
    + exists []. now destruct (interpret w e).
Qed.

(** The call of the scan executor found in the trace of a run is the one
    the scan stage made. *)
Lemma scan_call_in_run c r :
  In (Call c) (trace (run w)) ->
  answer w c = Some r ->
  includes supportedEvents (eventType w) = true
  /\ run w
     = (trace (front w)
          ++ Log Info ("event type: " +:+ JS.to_string (eventType w))
          :: Call c :: trace (after_scan w r),
        snd (after_scan w r)).
Proof.
  intros Hin Hans.
  pose proof (answered_is_scan _ _ _ Hans) as Hscan.
  destruct (front_quiet w) as [Hq _].
  destruct (run_shape w) as [(s & _ & E) | (c0 & r0 & Hans0 & He & E)];
    rewrite E in Hin; simpl in Hin.
  - apply (count_0_In _ _ _ Hq) in Hin. congruence.
  - apply in_app_or in Hin as [Hin | [Hin | [Hin | Hin]]].
    + apply (count_0_In _ _ _ Hq) in Hin. congruence.
    + discriminate.
    + injection Hin as ->. split; [exact He |].
      rewrite E. congruence.
    + apply In_calls in Hin. rewrite after_scan_calls in Hin.
      destruct r0 as [e0 | err0]; [| destruct Hin].
      destruct (gitleaksEnableSummary w); [| destruct Hin].
      destruct Hin as [<- | []]. discriminate.
Qed.

End AfterScan.

(** ** The interpretation of the exit code *)

(** C1, as stated, fails: a scan that returns [256] makes the controller
    call [process.exit(256)], and the process ends with status [0]. *)
Lemma exit_status_wraps :
  gitleaks_EXIT_CODE_LEAKS_DETECTED (collab Sample.user_push_error) <> 0%Z
  /\ interpret Sample.user_push_error 256
     = ([Log Error "ERROR: Unexpected exit code [256]"], Stop (Exited 256))
  /\ exit_status (final (interpret Sample.user_push_error 256)) = Some 0%Z
  /\ ~ raw_code_is_exit_status.
Proof.
  split; [simpl; discriminate |]. split; [reflexivity |].
  split; [reflexivity |].
  intros H. specialize (H Sample.user_push_error 256%Z).
  assert (E : Some 0%Z = Some 256%Z)
    by (apply H; simpl; discriminate).
  discriminate E.
Qed.

(** C1, amended.  For every exit code [e] returned by the scan executor,
    with a leak sentinel other than [0]: [e = 0] logs the no-leaks line at
    info level and lets the process end with status [0]; [e] equal to the
    sentinel logs a warning and exits with [1]; any other [e] logs an error
    that carries [e] as JavaScript prints it and is passed raw to
    [process.exit], so that the process ends with status [e mod 256], which
    is [e] itself from [0] to [255].  Up to [2^53] in magnitude [e] is
    printed in decimal digits, and the error line tells such codes
    apart. *)
Theorem interpret_exit_code (w : World) (e : Z) :
  gitleaks_EXIT_CODE_LEAKS_DETECTED (collab w) <> 0%Z ->
  (e = 0%Z ->
   interpret w e = ([Log Info "✅ No leaks detected"], Continue tt)
   /\ exit_status (final (interpret w e)) = Some 0%Z)
  /\ (e = gitleaks_EXIT_CODE_LEAKS_DETECTED (collab w) ->
      interpret w e
      = ([Log Warning "🛑 Leaks detected, see job summary for details"],
         Stop (Exited 1))
      /\ exit_status (final (interpret w e)) = Some 1%Z)
  /\ (e <> 0%Z -> e <> gitleaks_EXIT_CODE_LEAKS_DETECTED (collab w) ->
      interpret w e
      = ([Log Error ("ERROR: Unexpected exit code ["
                     +:+ JS.template_number e +:+ "]")],
         Stop (Exited e))
      /\ exit_status (final (interpret w e)) = Some (e mod 256)%Z
      /\ ((0 <= e < 256)%Z ->
          exit_status (final (interpret w e)) = Some e)
      /\ ((Z.abs e <= 2 ^ 53)%Z ->
          JS.template_number e = JS.number_to_string e))
  /\ (forall e', e' <> 0%Z ->
      e' <> gitleaks_EXIT_CODE_LEAKS_DETECTED (collab w) ->
      (Z.abs e <= 2 ^ 53)%Z -> (Z.abs e' <= 2 ^ 53)%Z ->
      trace (interpret w e') = trace (interpret w e) -> e' = e).
Proof.
  assert (Hsafe : forall n, (Z.abs n <= 2 ^ 53)%Z ->
                            JS.template_number n = JS.number_to_string n).
  { intros n Hn. unfold JS.template_number.
    apply Z.leb_le in Hn. now rewrite Hn. }
  intros Hs. unfold interpret. apply Z.eqb_neq in Hs.
  split; [| split; [| split]]; cycle 3.
  - intros e' H0 H1 He He'. apply Z.eqb_neq in H0, H1. rewrite H0, H1.
    destruct (e =? 0)%Z; [discriminate |].
    destruct (e =? _)%Z; [discriminate |].
    simpl. rewrite (Hsafe e He), (Hsafe e' He'). intros H.
    injection H as H.
    apply number_to_string_inj, (append_char_cancel _ _ _ H).
  - intros ->. split; reflexivity.
  - intros ->. rewrite Hs, Z.eqb_refl. split; reflexivity.
  - intros H0 H1. apply Z.eqb_neq in H0, H1. rewrite H0, H1.
    split; [reflexivity |]. split; [reflexivity |].
    split; [| apply Hsafe].
    intros Hr. unfold final, exit_status. cbn [snd bind log process_exit].
    now rewrite Z.mod_small.
Qed.

Lemma interpret_exit_code_witness :
  gitleaks_EXIT_CODE_LEAKS_DETECTED (collab Sample.user_push_error) <> 0%Z
  /\ interpret Sample.user_push_error 17
     = ([Log Error "ERROR: Unexpected exit code [17]"], Stop (Exited 17))
  /\ exit_status (final (interpret Sample.user_push_error 17)) = Some 17%Z
  /\ interpret Sample.user_push_error 2
     = ([Log Warning "🛑 Leaks detected, see job summary for details"],
        Stop (Exited 1)).
Proof.
  assert (Hs : gitleaks_EXIT_CODE_LEAKS_DETECTED
                 (collab Sample.user_push_error) <> 0%Z)
    by (simpl; discriminate).
  destruct (interpret_exit_code Sample.user_push_error 17 Hs)
    as (_ & _ & H17 & _).
  destruct H17 as (Hi & _ & Hst & _); [discriminate | simpl; discriminate |].
  destruct (interpret_exit_code Sample.user_push_error 2 Hs)
    as (_ & H2 & _).
  destruct (H2 eq_refl) as [Hi2 _].
  split; [exact Hs |]. split; [exact Hi |].
  split; [apply Hst; lia | exact Hi2].
Defined.

(** ** Exit codes of the failures before the scan *)

(** C2, as stated, fails: an organization without a license on an event
    that is not supported.  The license check, the event check and the
    detection of leaks all exit with [1]. *)
Lemma exit_codes_not_distinguishable :
  snd (license_check Sample.org_no_license true) = Stop (Exited 1)
  /\ snd (check_event Sample.org_no_license) = Stop (Exited 1)
  /\ snd (interpret Sample.org_no_license 2) = Stop (Exited 1)
  /\ ~ exit_codes_distinguishable.
Proof.
  repeat split; try reflexivity.
  intros H.
  destruct (H Sample.org_no_license true 1%Z 1%Z 1%Z) as (_ & _ & Hg & _);
    try reflexivity.
  now apply Hg.
Qed.

(** C2, amended.  The license check and the event check, whenever they end
    the process, exit with the fixed code [1], which is also the code the
    detection of leaks exits with: a run without a license, a run on an
    event that is not supported and a run that found leaks end with the same
    non-zero code. *)
Theorem exit_codes_all_one (w : World) :
  JS.truthy (process_env w "GITLEAKS_LICENSE") = false ->
  includes supportedEvents (eventType w) = false ->
  gitleaks_EXIT_CODE_LEAKS_DETECTED (collab w) <> 0%Z ->
  snd (license_check w true) = Stop (Exited 1)
  /\ snd (check_event w) = Stop (Exited 1)
  /\ snd (interpret w (gitleaks_EXIT_CODE_LEAKS_DETECTED (collab w)))
     = Stop (Exited 1)
  /\ (forall w' sv s, snd (license_check w' sv) = Stop s -> s = Exited 1)
  /\ (forall w' s, snd (check_event w') = Stop s -> s = Exited 1).
Proof.
  intros Hl He Hs. split; [| split; [| split; [| split]]].
  - unfold license_check. rewrite Hl. reflexivity.
  - unfold check_event. rewrite He. reflexivity.
  - unfold interpret. apply Z.eqb_neq in Hs. rewrite Hs, Z.eqb_refl.
    reflexivity.
  - intros w' sv s H.
    destruct (license_check_cases w' sv) as [(_ & _ & H' & _) | [_ H']];
      rewrite H' in H; simpl in H; congruence.
  - intros w' s H.
    destruct (check_event_cases w') as [(_ & H' & _) | [_ H']];
      rewrite H' in H; simpl in H; congruence.
Qed.

Lemma exit_codes_all_one_witness :
  JS.truthy (process_env Sample.org_no_license "GITLEAKS_LICENSE") = false
  /\ includes supportedEvents (eventType Sample.org_no_license) = false
  /\ gitleaks_EXIT_CODE_LEAKS_DETECTED (collab Sample.org_no_license) <> 0%Z
  /\ snd (license_check Sample.org_no_license true) = Stop (Exited 1)
  /\ snd (check_event Sample.org_no_license) = Stop (Exited 1)
  /\ snd (interpret Sample.org_no_license 2) = Stop (Exited 1).
Proof.
  assert (Hl : JS.truthy
                 (process_env Sample.org_no_license "GITLEAKS_LICENSE")
               = false) by reflexivity.
  assert (He : includes supportedEvents (eventType Sample.org_no_license)
               = false) by reflexivity.
  assert (Hs : gitleaks_EXIT_CODE_LEAKS_DETECTED
                 (collab Sample.org_no_license) <> 0%Z)
    by (simpl; discriminate).
  destruct (exit_codes_all_one Sample.org_no_license Hl He Hs)
    as (H1 & H2 & H3 & _).
  repeat split; assumption.
Defined.

(** ** The summary *)

(** C3, as stated, fails: with [GITLEAKS_ENABLE_SUMMARY] set to ["false"],
    a push by an individual owner calls the scan executor once and the
    summary writer not at all. *)
Lemma summary_skipped_when_disabled :
  count is_scan (trace (run Sample.user_push_no_summary)) = 1
  /\ count is_summary_write (trace (run Sample.user_push_no_summary)) = 0
  /\ ~ reporter_exactly_once.
Proof.
  assert (Hs : count is_scan (trace (run Sample.user_push_no_summary)) = 1)
    by (vm_compute; reflexivity).
  assert (Hw : count is_summary_write
                 (trace (run Sample.user_push_no_summary)) = 0)
    by (vm_compute; reflexivity).
  split; [exact Hs | split; [exact Hw |]].
  intros H. specialize (H Sample.user_push_no_summary).
  rewrite Hs, Hw in H. specialize (H (le_n 1)). discriminate.
Qed.

(** C3, amended.  In a run whose scan executor was called and returned an
    exit code [e] (an execution-error code included), the executor was
    called once, and the summary writer was called once, with [e], when the
    summary is enabled, and was not called when it is disabled; when it is
    disabled, or the writer returns, the run ends with the interpretation
    of [e]. *)
Theorem summary_written_once (w : World) (e : Z) :
  scan_returned w e ->
  count is_scan (trace (run w)) = 1
  /\ count is_summary_write (trace (run w))
     = (if gitleaksEnableSummary w then 1 else 0)
  /\ (gitleaksEnableSummary w = true ->
      In (Call (SummaryWrite e (eventJSON w))) (trace (run w)))
  /\ (gitleaksEnableSummary w = false
      \/ summary_Write (collab w) e (eventJSON w) = Resolved tt ->
      final (run w) = final (interpret w e)
      /\ exists t, trace (run w) = t ++ trace (interpret w e)).
Proof.
  intros (c & Hin & Hans).
  destruct (scan_call_in_run w c _ Hin Hans) as [_ E].
  destruct (front_quiet w) as [Hq Hq'].
  pose proof (answered_is_scan _ _ _ Hans) as Hc.
  pose proof (after_scan_calls w (Resolved e)) as Ha.
  pose proof (after_scan_interpret w e) as Hi.
  remember (trace (front w)) as tf eqn:Etf. clear Etf.
  remember (after_scan w (Resolved e)) as m eqn:Em. clear Em.
  destruct m as [ta oa]. rewrite E. clear E Hin.
  unfold trace, final in *. simpl fst in *. simpl snd in *.
  split; [| split; [| split]].
  - rewrite count_app, Hq. unfold count. simpl. rewrite Hc, Ha.
    destruct (gitleaksEnableSummary w); reflexivity.
  - rewrite count_app, Hq'. unfold count. simpl. rewrite Ha.
    destruct c; try discriminate; destruct (gitleaksEnableSummary w);
      reflexivity.
  - intros Hen. apply in_or_app. right. right. right.
    apply In_calls. rewrite Ha, Hen. now left.
  - intros H. destruct (Hi H) as [t Ht]. injection Ht as -> ->.
    split; [reflexivity |].
    exists (tf ++ Log Info ("event type: " +:+ JS.to_string (eventType w))
               :: Call c :: t).
    rewrite <- app_assoc. reflexivity.
Qed.

Lemma summary_written_once_witness :
  scan_returned Sample.user_push_error 17
  /\ count is_summary_write (trace (run Sample.user_push_error)) = 1
  /\ final (run Sample.user_push_error) = Exited 17.
Proof.
  assert (H : scan_returned Sample.user_push_error 17).
  { eexists (Scan true _ (Some "push")). split; [| reflexivity].
    vm_compute. do 6 right. left. reflexivity. }
  split; [exact H |].
  destruct (summary_written_once Sample.user_push_error 17 H)
    as (_ & Hw & _ & Hf).
  split; [exact Hw |].
  destruct Hf as [-> _]; [right |]; reflexivity.
Defined.

(** ** A scan executor that throws *)

(** C4, as stated, fails: when the scan of a push throws, the promise of
    [start] rejects; the summary is not written and the controller sets no
    exit code. *)
Lemma scan_failure_not_caught :
  scan_threw Sample.user_push_throws "Error: spawn gitleaks ENOENT"
  /\ gitleaksEnableSummary Sample.user_push_throws = true
  /\ count is_summary_write (trace (run Sample.user_push_throws)) = 0
  /\ final (run Sample.user_push_throws)
     = Unhandled "Error: spawn gitleaks ENOENT"
  /\ ~ scan_failure_caught.
Proof.
  assert (Ht : scan_threw Sample.user_push_throws
                 "Error: spawn gitleaks ENOENT").
  { eexists (Scan true _ (Some "push")). split; [| reflexivity].
    vm_compute. do 6 right. left. reflexivity. }
  split; [exact Ht |]. split; [reflexivity |].
  split; [vm_compute; reflexivity |]. split; [reflexivity |].
  intros H. destruct (H _ _ Ht) as [_ [code Hc]]. discriminate.
Qed.

(** C4, amended.  When the scan executor throws, the controller does not
    catch the error: the promise of [start] rejects with it, the call of the
    executor is the last thing the run does, and the summary writer is not
    called. *)
Theorem scan_failure_rejects (w : World) (err : string) :
  scan_threw w err ->
  final (run w) = Unhandled err
  /\ exit_status (final (run w)) = None
  /\ count is_summary_write (trace (run w)) = 0
  /\ exists t c, is_scan c = true /\ trace (run w) = t ++ [Call c].
Proof.
  intros (c & Hin & Hans).
  destruct (scan_call_in_run w c _ Hin Hans) as [_ E].
  destruct (front_quiet w) as [_ Hq].
  pose proof (answered_is_scan _ _ _ Hans) as Hc.
  rewrite E. unfold final. simpl.
  split; [reflexivity |]. split; [reflexivity |]. split.
  - rewrite count_app, Hq. unfold count. simpl.
    destruct c; try discriminate; reflexivity.
  - exists (trace (front w)
            ++ [Log Info ("event type: " +:+ JS.to_string (eventType w))]), c.
    split; [exact Hc |]. now rewrite <- app_assoc.
Qed.

Lemma scan_failure_rejects_witness :
  scan_threw Sample.user_push_throws "Error: spawn gitleaks ENOENT"
  /\ final (run Sample.user_push_throws)
     = Unhandled "Error: spawn gitleaks ENOENT".
Proof.
  assert (Ht : scan_threw Sample.user_push_throws
                 "Error: spawn gitleaks ENOENT").
  { eexists (Scan true _ (Some "push")). split; [| reflexivity].
    vm_compute. do 6 right. left. reflexivity. }
  split; [exact Ht |].
  apply (scan_failure_rejects Sample.user_push_throws _ Ht).
Defined.

(** ** The gate *)

Section Gate.

Variable w : World.

Lemma run_stops_in_front s :
  snd (front w) = Stop s -> run w = (trace (front w), Stop s).
Proof.
  rewrite run_split. destruct (front w) as [t [si | s']]; simpl;
    congruence.
Qed.

Lemma run_trace_front : exists t, trace (run w) = trace (front w) ++ t.
Proof. rewrite run_split, trace_bind. eauto. Qed.

(** A run that stops at the gate or at the event check: the lookup is the
    only call it made. *)
Lemma run_stops_in_gate code :
  snd (gated w) = Stop (Exited code) ->
  calls (trace (gated w)) = [] ->
  final (run w) = Exited code
  /\ calls (trace (run w)) = [GetUser (octokit w) (githubUsername w)].
Proof.
  intros Hs Hc. destruct (front_gated w) as [Hfc Hfs].
  rewrite Hs in Hfs. rewrite (run_stops_in_front _ Hfs).
  split; [reflexivity |]. cbn [trace fst]. fold (trace (front w)).
  now rewrite Hfc, Hc.
Qed.

Lemma truthy_false (v : option string) :
  JS.truthy v = false <-> v = None \/ v = Some "".
Proof.
  destruct v as [[| c s] |]; simpl; split; auto; try discriminate;
    intros [H | H]; discriminate.
Qed.

Lemma gated_license_missing :
  shouldValidate w = true ->
  JS.truthy (process_env w "GITLEAKS_LICENSE") = false ->
  gated w = ([Log Error missing_license], Stop (Exited 1)).
Proof.
  intros Hv Hl. unfold gated, license_check. rewrite Hv, Hl. reflexivity.
Qed.

Lemma gated_unsupported :
  includes supportedEvents (eventType w) = false ->
  snd (gated w) = Stop (Exited 1) /\ calls (trace (gated w)) = [].
Proof.
  intros He. unfold gated. rewrite trace_bind, outcome_bind, calls_app.
  destruct (license_check_cases w (shouldValidate w))
    as [(_ & _ & -> & ->) | [_ ->]]; [split; reflexivity |].
  simpl. rewrite trace_bind, outcome_bind, calls_app.
  destruct (check_event_cases w) as [(_ & -> & ->) | [He' _]];
    [split; reflexivity | congruence].
Qed.

(** With the gate open and the event supported, what remains of the front
    is the key validation, when it is due, and the installation. *)
Lemma gated_open :
  shouldValidate w = false
  \/ JS.truthy (process_env w "GITLEAKS_LICENSE") = true ->
  includes supportedEvents (eventType w) = true ->
  gated w = bind (validate w (shouldValidate w)) (fun _ => install w).
Proof.
  intros Hg He. unfold gated.
  destruct (license_check_cases w (shouldValidate w))
    as [(Hv & Hl & _) | [_ ->]].
  - destruct Hg; congruence.
  - destruct (check_event_cases w) as [(He' & _) | [_ ->]]; [congruence |].
    simpl.
    now destruct (bind (validate w (shouldValidate w)) (fun _ => install w)).
Qed.

Lemma install_not_validate : count is_validate (trace (install w)) = 0.
Proof.
  unfold install.
  destruct (JS.truthy (process_env w "GITLEAKS_VERSION")); simpl.
  - destruct (gitleaks_Install _ _); reflexivity.
  - destruct (gitleaks_Latest _ _); simpl; [| reflexivity].
    destruct (gitleaks_Install _ _); reflexivity.
Qed.

Lemma gated_not_validate :
  shouldValidate w = false -> count is_validate (trace (gated w)) = 0.
Proof.
  intros Hv. unfold gated. rewrite Hv, !count_bind.
  assert (H1 : count is_validate (trace (license_check w false)) = 0)
    by reflexivity.
  assert (H2 : count is_validate (trace (check_event w)) = 0).
  { unfold count.
    now destruct (check_event_cases w) as [(_ & _ & ->) | [_ ->]]. }
  rewrite H1, H2. cbn [license_check andb when ret snd]. cbn beta.
  destruct (snd (check_event w)); [| reflexivity].
  cbn [validate when ret snd]. apply install_not_validate.
Qed.

Lemma install_resolves :
  (forall o, exists v, gitleaks_Latest (collab w) o = Resolved v) ->
  (forall v, exists p, gitleaks_Install (collab w) v = Resolved p) ->
  exists si, snd (install w) = Continue si.
Proof.
  intros HL HI. unfold install.
  destruct (JS.truthy (process_env w "GITLEAKS_VERSION")); simpl.
  - destruct (HI (JS.to_string (process_env w "GITLEAKS_VERSION")))
      as [p ->]. simpl. eauto.
  - destruct (HL (octokit w)) as [v ->]. simpl.
    destruct (HI v) as [p ->]. simpl. eauto.
Qed.

(** A run whose front goes on calls the scan executor once. *)
Lemma run_scans_once si :
  snd (front w) = Continue si -> count is_scan (trace (run w)) = 1.
Proof.
  intros Hf. destruct (front_quiet w) as [Hq _].
  destruct (run_shape w) as [(s & Hs & _) | (c & r & Hans & _ & E)];
    [congruence |].
  rewrite E. cbn [trace fst]. fold (trace (front w)).
  rewrite count_app, Hq.
  pose proof (after_scan_calls w r) as Ha.
  unfold count. simpl. rewrite (answered_is_scan _ _ _ Hans).
  fold (trace (after_scan w r)). rewrite Ha.
  destruct r; [destruct (gitleaksEnableSummary w) |]; reflexivity.
Qed.

(** The calls of a run are those of its front, then at most a scan and a
    summary. *)
Lemma run_calls_not_validate :
  count is_validate (trace (run w)) = count is_validate (trace (front w)).
Proof.
  destruct (run_shape w) as [(s & _ & E) | (c & r & Hans & _ & E)];
    rewrite E; cbn [trace fst]; fold (trace (front w)); [reflexivity |].
  rewrite count_app. pose proof (after_scan_calls w r) as Ha.
  pose proof (answered_is_scan _ _ _ Hans) as Hc.
  unfold count at 2. simpl. fold (trace (after_scan w r)). rewrite Ha.
  destruct c; try discriminate;
    (destruct r; [destruct (gitleaksEnableSummary w) |]); simpl; lia.
Qed.

End Gate.

(** ** The license gate *)

(** C5.  When the lookup answers type ["User"], whatever
    [GITLEAKS_LICENSE] holds: [shouldValidate] is [false] after the lookup,
    the license check lets the run through without a line of log, the key is
    never validated, and, for a supported event whose engine resolves, the
    run calls the scan executor. *)
Theorem individual_exempt (w : World) :
  classification w = Individual ->
  snd (lookup w) = Continue false
  /\ license_check w false = ([], Continue tt)
  /\ validate w false = ([], Continue tt)
  /\ count is_validate (trace (run w)) = 0
  /\ (includes supportedEvents (eventType w) = true ->
      (forall o, exists v, gitleaks_Latest (collab w) o = Resolved v) ->
      (forall v, exists p, gitleaks_Install (collab w) v = Resolved p) ->
      count is_scan (trace (run w)) = 1).
Proof.
  intros Hc.
  assert (Hv : shouldValidate w = false).
  { unfold shouldValidate. unfold classification in Hc. now rewrite Hc. }
  destruct (lookup_continues w) as [Hl _]. rewrite Hv in Hl.
  destruct (front_gated w) as [Hfc Hfs].
  split; [exact Hl |]. split; [reflexivity |]. split; [reflexivity |].
  split.
  - rewrite run_calls_not_validate. unfold count. rewrite Hfc. simpl.
    apply (gated_not_validate w Hv).
  - intros He HL HI.
    destruct (install_resolves w HL HI) as [si Hsi].
    apply (run_scans_once w si). rewrite Hfs.
    rewrite (gated_open w (or_introl Hv) He), Hv.
    rewrite outcome_bind. exact Hsi.
Qed.

Lemma individual_exempt_witness :
  classification Sample.user_push_leaks = Individual
  /\ process_env Sample.user_push_leaks "GITLEAKS_LICENSE" = None
  /\ count is_validate (trace (run Sample.user_push_leaks)) = 0
  /\ count is_scan (trace (run Sample.user_push_leaks)) = 1.
Proof.
  assert (Hc : classification Sample.user_push_leaks = Individual)
    by reflexivity.
  split; [exact Hc |]. split; [reflexivity |].
  destruct (individual_exempt Sample.user_push_leaks Hc)
    as (_ & _ & _ & Hv & Hs).
  split; [exact Hv |].
  apply Hs; [reflexivity | |]; intros; eexists; reflexivity.
Defined.

(** C6, as stated, fails: the code a run without a license exits with is
    not its own.  An organization without a license exits with [1], and so
    do an individual owner's run on an event that is not supported and an
    individual owner's push in which leaks are found. *)
Lemma license_exit_not_dedicated :
  final (run Worlds.org_push_no_license) = Exited 1
  /\ classification Sample.user_issues = Individual
  /\ final (run Sample.user_issues) = Exited 1
  /\ final (run Sample.user_push_leaks) = Exited 1
  /\ ~ license_exit_dedicated.
Proof.
  split; [reflexivity |]. split; [reflexivity |].
  split; [reflexivity |]. split; [reflexivity |].
  intros H.
  destruct (H Worlds.org_push_no_license) as (code & Hf & Hd);
    [left; reflexivity | left; reflexivity |].
  assert (Hcode : code = 1%Z).
  { assert (E : final (run Worlds.org_push_no_license) = Exited 1)
      by reflexivity.
    rewrite E in Hf. now injection Hf. }
  subst code.
  destruct (Hd Sample.user_issues eq_refl) as [t Ht].
  apply (f_equal (fun l => List.last l (Log Debug ""))) in Ht.
  rewrite List.last_last in Ht. vm_compute in Ht. discriminate Ht.
Qed.

(** C6, amended.  When the owner is an organization or could not be
    classified, and [GITLEAKS_LICENSE] is not set or is empty, the run logs
    the missing license and exits with [1], the code the event check and
    the detection of leaks also exit with; the owner lookup is the only
    call it made: no key validation, no engine resolution, no scan, no
    summary. *)
Theorem license_missing_exits (w : World) :
  classification w = Organization \/ classification w = Unknown ->
  process_env w "GITLEAKS_LICENSE" = None
  \/ process_env w "GITLEAKS_LICENSE" = Some "" ->
  final (run w) = Exited 1
  /\ exit_status (final (run w)) = Some 1%Z
  /\ calls (trace (run w)) = [GetUser (octokit w) (githubUsername w)]
  /\ count is_scan (trace (run w)) = 0
  /\ count is_summary_write (trace (run w)) = 0
  /\ (exists t, trace (run w) = t ++ [Log Error missing_license])
  /\ (forall w', includes supportedEvents (eventType w') = false ->
                 final (run w') = final (run w))
  /\ (forall w' e,
        scan_returned w' e ->
        e = gitleaks_EXIT_CODE_LEAKS_DETECTED (collab w') -> e <> 0%Z ->
        gitleaksEnableSummary w' = false
        \/ summary_Write (collab w') e (eventJSON w') = Resolved tt ->
        final (run w') = final (run w)).
Proof.
  intros Hc Hl. apply truthy_false in Hl.
  assert (Hv : shouldValidate w = true).
  { unfold shouldValidate. unfold classification in Hc.
    destruct Hc as [-> | ->]; reflexivity. }
  pose proof (gated_license_missing w Hv Hl) as Hg.
  assert (Hs : snd (gated w) = Stop (Exited 1)) by now rewrite Hg.
  assert (Hq : calls (trace (gated w)) = []) by now rewrite Hg.
  destruct (run_stops_in_gate w 1 Hs Hq) as [Hf Hcalls].
  split; [exact Hf |]. rewrite Hf. split; [reflexivity |].
  split; [exact Hcalls |].
  unfold count. rewrite Hcalls.
  split; [reflexivity |]. split; [reflexivity |].
  split; [| split].
  - destruct (front_gated w) as [_ Hfs]. rewrite Hs in Hfs.
    rewrite (run_stops_in_front w _ Hfs). cbn [trace fst].
    fold (trace (front w)). rewrite front_trace, Hg.
    exists (trace (startup w) ++ trace (lookup w)).
    now rewrite <- app_assoc.
  - intros w' He.
    destruct (gated_unsupported w' He) as [Hs' Hq'].
    now destruct (run_stops_in_gate w' 1 Hs' Hq').
  - intros w' e (c & Hin & Hans) He Hne Hw.
    destruct (scan_call_in_run w' c _ Hin Hans) as [_ E].
    destruct (after_scan_interpret w' e Hw) as [t Ht].
    rewrite E, Ht. unfold final, interpret. cbn [snd].
    apply Z.eqb_neq in Hne. rewrite Hne. subst e.
    now rewrite Z.eqb_refl.
Qed.

Lemma license_missing_exits_witness :
  classification Worlds.org_push_no_license = Organization
  /\ process_env Worlds.org_push_no_license "GITLEAKS_LICENSE" = None
  /\ includes supportedEvents (eventType Worlds.org_push_no_license) = true
  /\ final (run Worlds.org_push_no_license) = Exited 1
  /\ calls (trace (run Worlds.org_push_no_license))
     = [GetUser (octokit Worlds.org_push_no_license) "acme"].
Proof.
  assert (Hc : classification Worlds.org_push_no_license = Organization)
    by reflexivity.
  assert (Hl : process_env Worlds.org_push_no_license "GITLEAKS_LICENSE"
               = None) by reflexivity.
  split; [exact Hc |]. split; [exact Hl |]. split; [reflexivity |].
  destruct (license_missing_exits Worlds.org_push_no_license
              (or_introl Hc) (or_introl Hl)) as (Hf & _ & Hcalls & _).
  split; [exact Hf | exact Hcalls].
Defined.

(** ** Events that are not supported *)

(** C7.  When the event name is none of [push], [pull_request] and
    [workflow_dispatch] (or is not set), the run exits with [1], and the
    owner lookup is the only call it made: the key is not validated, no
    engine version is resolved or installed, no scan is run and no summary
    written. *)
Theorem unsupported_event_exits (w : World) :
  eventType w <> Some "push" ->
  eventType w <> Some "pull_request" ->
  eventType w <> Some "workflow_dispatch" ->
  final (run w) = Exited 1
  /\ exit_status (final (run w)) = Some 1%Z
  /\ calls (trace (run w)) = [GetUser (octokit w) (githubUsername w)]
  /\ count is_scan (trace (run w)) = 0
  /\ count is_validate (trace (run w)) = 0.
Proof.
  intros H1 H2 H3.
  assert (He : includes supportedEvents (eventType w) = false).
  { destruct (includes supportedEvents (eventType w)) eqn:E;
      [| reflexivity].
    apply includes_supported in E. tauto. }
  destruct (gated_unsupported w He) as [Hs Hq].
  destruct (run_stops_in_gate w 1 Hs Hq) as [Hf Hcalls].
  unfold count. rewrite Hf, Hcalls. repeat split.
Qed.

Lemma unsupported_event_exits_witness :
  eventType Sample.user_issues = Some "issues"
  /\ final (run Sample.user_issues) = Exited 1
  /\ calls (trace (run Sample.user_issues))
     = [GetUser (octokit Sample.user_issues) "acme"].
Proof.
  split; [reflexivity |].
  destruct (unsupported_event_exits Sample.user_issues)
    as (Hf & _ & Hcalls & _); try (vm_compute; discriminate).
  split; [exact Hf | exact Hcalls].
Defined.

(** ** The owner lookup *)

(** C8.  Whatever the lookup answers, the handlers only log below error
    level and hand on [shouldValidate]: [true] for type ["Organization"],
    [false] for type ["User"], [true] for any other type and for a failed
    lookup, which are the cases classified [Unknown].  With [shouldValidate]
    true the license is enforced: without one the run exits with [1] before
    any scan, and with one, on a supported event, the key is validated. *)
Theorem lookup_degrades (w : World) (r : settled User) :
  octokit_request (collab w) (octokit w) (githubUsername w) = r ->
  (exists t sv,
      lookup w = (Call (GetUser (octokit w) (githubUsername w)) :: t,
                  Continue sv)
      /\ Forall soft_log t)
  /\ (forall u, r = Resolved u -> data_type u = "Organization" ->
      snd (lookup w) = Continue true /\ classify r = Organization)
  /\ (forall u, r = Resolved u -> data_type u = "User" ->
      snd (lookup w) = Continue false /\ classify r = Individual)
  /\ (forall u, r = Resolved u -> data_type u <> "Organization" ->
      data_type u <> "User" ->
      snd (lookup w) = Continue true /\ classify r = Unknown)
  /\ (forall err, r = Rejected err ->
      snd (lookup w) = Continue true /\ classify r = Unknown)
  /\ (classify r = Unknown ->
      (JS.truthy (process_env w "GITLEAKS_LICENSE") = false ->
       final (run w) = Exited 1 /\ count is_scan (trace (run w)) = 0)
      /\ (JS.truthy (process_env w "GITLEAKS_LICENSE") = true ->
          includes supportedEvents (eventType w) = true ->
          In (Call (ValidateKey (eventJSON w))) (trace (run w)))).
Proof.
  intros Hr.
  assert (soft : forall l msg, l <> Error -> soft_log (Log l msg))
    by (intros l msg Hl; exists l, msg; auto).
  split; [| split; [| split; [| split; [| split]]]].
  - unfold lookup. rewrite Hr. destruct r as [u | err]; simpl.
    + unfold on_user.
      destruct (String.eqb (data_type u) "Organization");
        [| destruct (String.eqb (data_type u) "User")];
        simpl; eexists _, _; (split; [reflexivity |]);
        repeat constructor; apply soft; discriminate.
    + eexists _, _. split; [reflexivity |].
      repeat constructor; apply soft; discriminate.
  - intros u -> Hu. destruct (lookup_continues w) as [-> _].
    unfold shouldValidate. rewrite Hr. unfold classify. rewrite Hu.
    split; reflexivity.
  - intros u -> Hu. destruct (lookup_continues w) as [-> _].
    unfold shouldValidate. rewrite Hr. unfold classify. rewrite Hu.
    split; reflexivity.
  - intros u -> Ho Hu. apply String.eqb_neq in Ho, Hu.
    destruct (lookup_continues w) as [-> _].
    unfold shouldValidate. rewrite Hr. unfold classify. rewrite Ho, Hu.
    split; reflexivity.
  - intros err ->. destruct (lookup_continues w) as [-> _].
    unfold shouldValidate. rewrite Hr. split; reflexivity.
  - intros Hc.
    assert (Hv : shouldValidate w = true)
      by (unfold shouldValidate; now rewrite Hr, Hc).
    split.
    + intros Hl. pose proof (gated_license_missing w Hv Hl) as Hg.
      assert (Hs : snd (gated w) = Stop (Exited 1)) by now rewrite Hg.
      assert (Hq : calls (trace (gated w)) = []) by now rewrite Hg.
      destruct (run_stops_in_gate w 1 Hs Hq) as [Hf Hcalls].
      split; [exact Hf |]. unfold count. now rewrite Hcalls.
    + intros Hl He. destruct (run_trace_front w) as [t ->].
      apply in_or_app. left. rewrite front_trace.
      apply in_or_app. right. apply in_or_app. right.
      rewrite (gated_open w (or_intror Hl) He), Hv, trace_bind.
      apply in_or_app. left. left. reflexivity.
Qed.

Lemma lookup_degrades_witness :
  octokit_request (collab Sample.org_licensed) (octokit Sample.org_licensed)
    (githubUsername Sample.org_licensed) = Sample.user "Organization"
  /\ snd (lookup Sample.org_licensed) = Continue true.
Proof.
  split; [reflexivity |].
  destruct (lookup_degrades Sample.org_licensed (Sample.user "Organization")
              eq_refl) as (_ & H & _).
  apply (H {| data_type := "Organization"; user_json := "{}" |});
    reflexivity.
Defined.

(** ** The feature flags *)

(** C9.  Each flag is a function of the environment alone.  It is [false]
    exactly when its variable is loosely equal to the string ["false"] or to
    the number [0], and [true] otherwise; ["false"], ["0"], ["0.0"] and the
    empty string all clear it, a variable that is not set leaves it
    [true]. *)
Theorem flags_loose_comparison (w : World) :
  (gitleaksEnableSummary w = false
   <-> JS.loose_eq_string (process_env w "GITLEAKS_ENABLE_SUMMARY") "false"
       = true
       \/ JS.loose_eq_zero (process_env w "GITLEAKS_ENABLE_SUMMARY") = true)
  /\ (gitleaksEnableUploadArtifact w = false
      <-> JS.loose_eq_string
            (process_env w "GITLEAKS_ENABLE_UPLOAD_ARTIFACT") "false" = true
          \/ JS.loose_eq_zero
               (process_env w "GITLEAKS_ENABLE_UPLOAD_ARTIFACT") = true)
  /\ (forall v, In v ["false"; "0"; "0.0"; ""] ->
      (process_env w "GITLEAKS_ENABLE_SUMMARY" = Some v ->
       gitleaksEnableSummary w = false)
      /\ (process_env w "GITLEAKS_ENABLE_UPLOAD_ARTIFACT" = Some v ->
          gitleaksEnableUploadArtifact w = false))
  /\ (process_env w "GITLEAKS_ENABLE_SUMMARY" = None ->
      gitleaksEnableSummary w = true)
  /\ (process_env w "GITLEAKS_ENABLE_UPLOAD_ARTIFACT" = None ->
      gitleaksEnableUploadArtifact w = true)
  /\ JS.loose_eq_zero (Some "0") = true
  /\ JS.loose_eq_zero (Some "0.0") = true
  /\ JS.loose_eq_zero (Some "") = true
  /\ JS.loose_eq_zero (Some "false") = false
  /\ JS.loose_eq_zero (Some "true") = false
  /\ JS.loose_eq_zero (Some "1") = false
  /\ JS.loose_eq_zero None = false
  /\ JS.loose_eq_string None "false" = false.
Proof.
  unfold gitleaksEnableSummary, gitleaksEnableUploadArtifact.
  split; [| split; [| split; [| split; [| split]]]].
  - rewrite <- orb_true_iff. destruct (_ || _); split; congruence.
  - rewrite <- orb_true_iff. destruct (_ || _); split; congruence.
  - intros v Hv. simpl in Hv.
    destruct Hv as [<- | [<- | [<- | [<- | []]]]];
      split; intros ->; reflexivity.
  - intros ->. reflexivity.
  - intros ->. reflexivity.
  - repeat split; vm_compute; reflexivity.
Qed.

(** ** Push and manual runs *)

Section SameScan.

Variable w : World.














End SameScan.

Lemma scan_stage_call (w : World) (si : ScanInfo) :
  includes supportedEvents (eventType w) = true ->
  exists r,
    scan_stage w si
    = (Log Info ("event type: " +:+ JS.to_string (eventType w))
         :: Call (if strict_eq (eventType w) "pull_request"
                  then ScanPullRequest (gitleaksEnableUploadArtifact w)
                         (octokit w) (eventJSON w) (eventType w)
                  else Scan (gitleaksEnableUploadArtifact w) si
                         (eventType w))
         :: trace (after_scan w r),
       snd (after_scan w r)).
Proof.
  intros H. apply includes_supported in H.
  unfold scan_stage, dispatch.
  destruct H as [H | [H | H]]; rewrite H;
    cbn [strict_eq String.eqb Ascii.eqb Bool.eqb];
    match goal with
    | |- context [await _ ?p] => exists p; destruct p as [e | err]
    end; simpl; try reflexivity;
    destruct (bind (report w e) (fun _ => interpret w e)); reflexivity.
Qed.

(** The scan call found in a run is the one the dispatch chose. *)
Lemma scan_call_chosen (w : World) (c : call) :
  is_scan c = true ->
  In (Call c) (trace (run w)) ->
  includes supportedEvents (eventType w) = true
  /\ exists si,
       snd (front w) = Continue si
       /\ c = (if strict_eq (eventType w) "pull_request"
               then ScanPullRequest (gitleaksEnableUploadArtifact w)
                      (octokit w) (eventJSON w) (eventType w)
               else Scan (gitleaksEnableUploadArtifact w) si (eventType w)).
Proof.
  intros Hc Hin. rewrite run_split, trace_bind in Hin.
  destruct (front_quiet w) as [Hq _].
  apply in_app_or in Hin as [Hin | Hin].
  - apply (count_0_In _ _ _ Hq) in Hin. congruence.
  - destruct (snd (front w)) as [si |] eqn:Hf; [| destruct Hin].
    destruct (front_goes_on w si Hf) as (_ & He & _).
    split; [exact He |]. exists si. split; [reflexivity |].
    destruct (scan_stage_call w si He) as [r E]. rewrite E in Hin.
    cbn [trace fst] in Hin.
    destruct Hin as [Hin | [Hin | Hin]]; [discriminate | congruence |].
    apply In_calls in Hin. fold (trace (after_scan w r)) in Hin.
    rewrite after_scan_calls in Hin.
    destruct r; [destruct (gitleaksEnableSummary w) |];
      simpl in Hin; try tauto.
    destruct Hin as [<- | []]. discriminate.
Qed.




(** ** Scenarios *)

(** An individual owner without a license pushes; the scan is clean. *)
Example scenario_user_push_clean :
  let w := Sample.world [("GITHUB_EVENT_NAME", "push")] (Sample.user "User")
             (Resolved 0%Z) in
  final (run w) = Completed
  /\ calls (trace (run w))
     = [GetUser (octokit w) "acme";
        Latest (octokit w);
        Install "v8.18.2";
        Scan true
          {| headRef := Some "4f2a9c1";
             baseRef := Some "9be01d7";
             gitleaksPath := "/tmp/gitleaks-v8.18.2" |}
          (Some "push");
        SummaryWrite 0 Sample.push_event].
Proof. vm_compute. split; reflexivity. Qed.

(** An organization without a license: the run stops at the gate. *)
Example scenario_org_no_license :
  run Sample.org_no_license
  = ([Call (GetUser (octokit Sample.org_no_license) "acme");
      Log Info "[acme] is an organization. License key is required.";
      Log Error missing_license],
     Stop (Exited 1)).
Proof. vm_compute. reflexivity. Qed.

(** A pull request of a licensed organization in which leaks are found. *)
Example scenario_pull_request_leaks :
  let w := Sample.world
             [("GITHUB_EVENT_NAME", "pull_request");
              ("GITLEAKS_LICENSE", "key");
              ("GITLEAKS_VERSION", "8.16.1")]
             (Sample.user "Organization") (Resolved 2%Z) in
  final (run w) = Exited 1
  /\ calls (trace (run w))
     = [GetUser (octokit w) "acme";
        ValidateKey Sample.push_event;
        Install "8.16.1";
        ScanPullRequest true (octokit w) Sample.push_event
          (Some "pull_request");
        SummaryWrite 2 Sample.push_event].
Proof. vm_compute. split; reflexivity. Qed.

(** The scan fails with exit code [17]: the summary is written and the
    code is passed on. *)
Example scenario_unexpected_code :
  final (run Sample.user_push_error) = Exited 17
  /\ count is_summary_write (trace (run Sample.user_push_error)) = 1
  /\ In (Log Error "ERROR: Unexpected exit code [17]")
       (trace (run Sample.user_push_error)).
Proof. vm_compute. repeat split. do 8 right. left. reflexivity. Qed.

(** The lookup fails and the event is a manual run with the summary
    switched off by an empty variable. *)
Example scenario_lookup_fails :
  let w := Sample.world
             [("GITHUB_EVENT_NAME", "workflow_dispatch");
              ("GITLEAKS_LICENSE", "key");
              ("GITLEAKS_ENABLE_SUMMARY", "")]
             (Rejected "HttpError: Not Found") (Resolved 0%Z) in
  snd (lookup w) = Continue true
  /\ final (run w) = Completed
  /\ calls (trace (run w))
     = [GetUser (octokit w) "acme";
        ValidateKey Sample.push_event;
        Latest (octokit w);
        Install "v8.18.2";
        Scan true
          {| headRef := Some "4f2a9c1";
             baseRef := Some "9be01d7";
             gitleaksPath := "/tmp/gitleaks-v8.18.2" |}
          (Some "workflow_dispatch")].
Proof. vm_compute. repeat split. Qed.

(** Strings that are, and are not, loosely equal to [0]. *)
Example loose_zero_samples :
  map JS.string_to_number
    ["0"; "0.0"; ""; " "; "-0"; "+.0e5"; "0x0"; "0b0"; "1e-400";
     "false"; "true"; "1"; "0x"; "."; "0e"; "1e-300"; "Infinity"; "0 0"]
  = [JS.Zero; JS.Zero; JS.Zero; JS.Zero; JS.Zero; JS.Zero; JS.Zero; JS.Zero;
     JS.Zero;
     JS.NaN; JS.NaN; JS.NonZero; JS.NaN; JS.NaN; JS.NaN; JS.NonZero;
     JS.NonZero; JS.NaN].
Proof. vm_compute. reflexivity. Qed.

(** ** The calls of a run, stage by stage *)

Section Calls.

Variable w : World.

Lemma validate_calls sv :
  calls (trace (validate w sv))
  = if sv then [ValidateKey (eventJSON w)] else [].
Proof. destruct sv; reflexivity. Qed.

Lemma install_calls :
  calls (trace (install w))
  = if JS.truthy (process_env w "GITLEAKS_VERSION")
    then [Install (JS.to_string (process_env w "GITLEAKS_VERSION"))]
    else match gitleaks_Latest (collab w) (octokit w) with
         | Resolved v => [Latest (octokit w); Install v]
         | Rejected _ => [Latest (octokit w)]
         end.
Proof.
  unfold install.
  destruct (JS.truthy (process_env w "GITLEAKS_VERSION")); simpl.
  - destruct (gitleaks_Install _ _); reflexivity.
  - destruct (gitleaks_Latest _ _); simpl; [| reflexivity].
    destruct (gitleaks_Install _ _); reflexivity.
Qed.

(** The calls between the lookup and the scan: none when the license check
    or the event check stops the run; otherwise the key validation, when it
    is due, and, if the key is accepted, the engine resolution. *)
Lemma gated_calls :
  calls (trace (gated w))
  = if shouldValidate w
       && negb (JS.truthy (process_env w "GITLEAKS_LICENSE"))
    then []
    else if negb (includes supportedEvents (eventType w)) then []
    else calls (trace (validate w (shouldValidate w)))
         ++ match snd (validate w (shouldValidate w)) with
            | Continue _ => calls (trace (install w))
            | Stop _ => []
            end.
Proof.
  destruct (license_check_cases w (shouldValidate w))
    as [(Hv & Hl & Hs & Hc) | [Hg Hc]].
  - rewrite Hv, Hl. simpl.
    now rewrite (gated_license_missing w Hv Hl).
  - assert (Hb : shouldValidate w
                 && negb (JS.truthy (process_env w "GITLEAKS_LICENSE"))
                 = false)
      by (destruct Hg as [-> | ->]; [reflexivity | apply andb_false_r]).
    rewrite Hb.
    destruct (check_event_cases w) as [(He & Hs & Hc') | [He Hc']].
    + rewrite He. simpl. apply (gated_unsupported w He).
    + rewrite He. simpl. rewrite (gated_open w Hg He).
      rewrite trace_bind, calls_app.
      now destruct (snd (validate w (shouldValidate w))).
Qed.

(** The calls of a run: the lookup, the calls up to the engine
    resolution, then nothing more, or the scan, or the scan and the
    summary. *)
Lemma run_calls :
  exists tail,
    calls (trace (run w))
    = GetUser (octokit w) (githubUsername w)
        :: calls (trace (gated w)) ++ tail
    /\ (tail = []
        \/ exists c, is_scan c = true
             /\ (tail = [c]
                 \/ exists e, tail = [c; SummaryWrite e (eventJSON w)])).
Proof.
  destruct (front_gated w) as [Hfc _].
  destruct (run_shape w) as [(s & _ & E) | (c & r & Hans & _ & E)];
    rewrite E; cbn [trace fst]; fold (trace (front w)).
  - exists []. rewrite Hfc, app_nil_r. auto.
  - exists (c :: calls (trace (after_scan w r))).
    rewrite calls_app, Hfc. split; [reflexivity |]. right. exists c.
    split; [apply (answered_is_scan _ _ _ Hans) |].
    rewrite after_scan_calls.
    destruct r as [e |]; [destruct (gitleaksEnableSummary w) |]; eauto.
Qed.

(** A call of an early stage found in a run is one of those made between
    the lookup and the scan, unless it is the lookup. *)
Lemma early_call_in_gated c :
  In (Call c) (trace (run w)) -> is_early c = true -> stage c <> 0 ->
  In c (calls (trace (gated w))).
Proof.
  intros Hin He Hs. apply In_calls in Hin.
  destruct run_calls as (tail & E & Ht). rewrite E in Hin.
  destruct Hin as [<- | Hin]; [now destruct Hs |].
  apply in_app_or in Hin as [Hin | Hin]; [exact Hin |].
  destruct Ht as [-> | (c0 & Hc0 & [-> | (e & ->)])]; simpl in Hin.
  - destruct Hin.
  - destruct Hin as [<- | []]. destruct c0; discriminate.
  - destruct Hin as [<- | [<- | []]]; [destruct c0 |]; discriminate.
Qed.

Lemma gated_calls_forms :
  exists vs es,
    calls (trace (gated w)) = vs ++ es
    /\ (vs = [] \/ vs = [ValidateKey (eventJSON w)])
    /\ (es = [] \/ (exists v, es = [Install v])
        \/ es = [Latest (octokit w)]
        \/ exists v, es = [Latest (octokit w); Install v]).
Proof.
  rewrite gated_calls.
  destruct (shouldValidate w && _); [exists [], []; auto |].
  destruct (negb _); [exists [], []; auto |].
  eexists _, _. split; [reflexivity |]. rewrite validate_calls. split.
  - destruct (shouldValidate w); auto.
  - destruct (snd (validate w (shouldValidate w))); [| auto].
    rewrite install_calls.
    destruct (JS.truthy _); [eauto |].
    destruct (gitleaks_Latest _ _); eauto.
Qed.

(** The stages of the calls of a run increase strictly. *)
Lemma run_calls_increasing : increasing 0 (calls (trace (run w))) = true.
Proof.
  destruct run_calls as (tail & -> & Ht).
  destruct gated_calls_forms as (vs & es & -> & Hvs & Hes).
  assert (Hscan : forall c, is_scan c = true -> stage c = 4)
    by (intros []; simpl; congruence).
  destruct Hvs as [-> | ->];
    destruct Hes as [-> | [[v ->] | [-> | [v ->]]]];
    destruct Ht as [-> | (c0 & Hc0 & [-> | (e & ->)])];
    simpl; try rewrite (Hscan _ Hc0); reflexivity.
Qed.

End Calls.

(** ** The engine version *)

Lemma scan_tail_early (w : World) (p : call -> bool) (tail : list call) :
  (forall c, is_early c = false -> p c = false) ->
  tail = []
  \/ (exists c, is_scan c = true
        /\ (tail = [c]
            \/ exists e, tail = [c; SummaryWrite e (eventJSON w)])) ->
  List.filter p tail = [].
Proof.
  intros Hp [-> | (c & Hc & [-> | (e & ->)])]; simpl; [reflexivity | |];
    rewrite ?(Hp c) by (destruct c; simpl in *; congruence);
    rewrite ?(Hp (SummaryWrite _ _)) by reflexivity; reflexivity.
Qed.

(** X1.  With [GITLEAKS_VERSION] set to a string that is not empty, the run
    never asks for the latest version, and whenever it installs the engine
    it installs that version. *)
Theorem version_override (w : World) (v : string) :
  process_env w "GITLEAKS_VERSION" = Some v -> v <> "" ->
  count is_latest (trace (run w)) = 0
  /\ forall v', In (Call (Install v')) (trace (run w)) -> v' = v.
Proof.
  intros Hv Hne.
  assert (Ht : JS.truthy (process_env w "GITLEAKS_VERSION") = true)
    by (rewrite Hv; destruct v; [now destruct Hne | reflexivity]).
  assert (Hg : forall c, In c (calls (trace (gated w))) ->
                         c = ValidateKey (eventJSON w) \/ c = Install v).
  { intros c. rewrite gated_calls, validate_calls, install_calls, Ht, Hv.
    destruct (shouldValidate w && _); [intros [] |].
    destruct (negb _); [intros [] |].
    intros Hin. apply in_app_or in Hin as [Hin | Hin].
    - destruct (shouldValidate w); [| destruct Hin].
      destruct Hin as [<- | []]. auto.
    - destruct (snd (validate w (shouldValidate w))); [| destruct Hin].
      destruct Hin as [<- | []]. auto. }
  split.
  - unfold count. destruct (run_calls w) as (tail & -> & Htail).
    simpl. rewrite List.filter_app.
    rewrite (scan_tail_early w is_latest tail)
      by (auto; intros []; simpl; congruence).
    rewrite app_nil_r.
    destruct (List.filter is_latest (calls (trace (gated w))))
      as [| c l] eqn:E; [reflexivity |].
    assert (Hc : In c (List.filter is_latest (calls (trace (gated w)))))
      by (rewrite E; now left).
    apply List.filter_In in Hc as [Hc Hl].
    destruct (Hg c Hc) as [-> | ->]; discriminate.
  - intros v' Hin.
    apply early_call_in_gated in Hin; [| reflexivity | discriminate].
    destruct (Hg _ Hin) as [H | H]; congruence.
Qed.

Lemma version_override_witness :
  process_env Worlds.pinned_version "GITLEAKS_VERSION" = Some "8.16.1"
  /\ "8.16.1" <> ""
  /\ In (Call (Install "8.16.1")) (trace (run Worlds.pinned_version))
  /\ count is_latest (trace (run Worlds.pinned_version)) = 0.
Proof.
  assert (Hv : process_env Worlds.pinned_version "GITLEAKS_VERSION"
               = Some "8.16.1") by reflexivity.
  assert (Hne : "8.16.1" <> "") by discriminate.
  split; [exact Hv |]. split; [exact Hne |]. split.
  - vm_compute. do 3 right. left. reflexivity.
  - apply (version_override Worlds.pinned_version "8.16.1" Hv Hne).
Defined.

(** X2.  With [GITLEAKS_VERSION] unset or empty, the version a run
    installs is the one [gitleaks.Latest] returned to it. *)
Theorem version_fallback (w : World) (v : string) :
  process_env w "GITLEAKS_VERSION" = None
  \/ process_env w "GITLEAKS_VERSION" = Some "" ->
  In (Call (Install v)) (trace (run w)) ->
  gitleaks_Latest (collab w) (octokit w) = Resolved v
  /\ In (Call (Latest (octokit w))) (trace (run w))
  /\ count is_latest (trace (run w)) = 1.
Proof.
  intros Hv Hin. apply truthy_false in Hv.
  pose proof Hin as Hg.
  apply early_call_in_gated in Hg; [| reflexivity | discriminate].
  destruct (run_calls w) as (tail & E & Htail).
  unfold count. rewrite In_calls, E. clear E Hin.
  simpl. rewrite List.filter_app.
  rewrite (scan_tail_early w is_latest tail)
    by (auto; intros []; simpl; congruence).
  rewrite app_nil_r.
  rewrite gated_calls, validate_calls, install_calls, Hv in *.
  destruct (shouldValidate w && _); [destruct Hg |].
  destruct (negb _); [destruct Hg |].
  assert (Hi : In (Install v)
                 match snd (validate w (shouldValidate w)) with
                 | Continue _ =>
                     match gitleaks_Latest (collab w) (octokit w) with
                     | Resolved v0 => [Latest (octokit w); Install v0]
                     | Rejected _ => [Latest (octokit w)]
                     end
                 | Stop _ => []
                 end).
  { apply in_app_or in Hg as [Hg | Hg]; [| exact Hg].
    destruct (shouldValidate w); [| destruct Hg].
    destruct Hg as [Hg | []]. discriminate. }
  clear Hg.
  destruct (snd (validate w (shouldValidate w))); [| destruct Hi].
  destruct (gitleaks_Latest (collab w) (octokit w)) as [v0 | err].
  - destruct Hi as [Hi | [Hi | []]]; [discriminate |].
    injection Hi as ->. split; [reflexivity |]. split.
    + right. apply in_or_app. left. apply in_or_app. right. now left.
    + rewrite List.filter_app. now destruct (shouldValidate w).
  - destruct Hi as [Hi | []]. discriminate.
Qed.

Lemma version_fallback_witness :
  process_env Sample.user_push_leaks "GITLEAKS_VERSION" = None
  /\ In (Call (Install "v8.18.2")) (trace (run Sample.user_push_leaks))
  /\ gitleaks_Latest (collab Sample.user_push_leaks)
       (octokit Sample.user_push_leaks) = Resolved "v8.18.2"
  /\ count is_latest (trace (run Sample.user_push_leaks)) = 1.
Proof.
  assert (Hv : process_env Sample.user_push_leaks "GITLEAKS_VERSION" = None)
    by reflexivity.
  assert (Hin : In (Call (Install "v8.18.2"))
                  (trace (run Sample.user_push_leaks)))
    by (vm_compute; do 4 right; left; reflexivity).
  split; [exact Hv |]. split; [exact Hin |].
  destruct (version_fallback Sample.user_push_leaks "v8.18.2"
              (or_introl Hv) Hin) as (Hl & _ & Hc).
  split; [exact Hl | exact Hc].
Defined.

(** ** The order of the calls *)

Lemma increasing_skips (k lo : nat) (l : list call) :
  increasing lo l = true -> k < lo ->
  List.filter (fun c => stage c =? k) l = [].
Proof.
  revert lo. induction l as [| c l IH]; intros lo H Hk; [reflexivity |].
  simpl in *. apply andb_prop in H as [Hlo Hl].
  apply Nat.leb_le in Hlo.
  destruct (Nat.eqb_spec (stage c) k) as [E | _]; [lia |].
  apply (IH (S (stage c))); [exact Hl | lia].
Qed.

Lemma increasing_once (k lo : nat) (l : list call) :
  increasing lo l = true ->
  length (List.filter (fun c => stage c =? k) l) <= 1.
Proof.
  revert lo. induction l as [| c l IH]; intros lo H; simpl; [lia |].
  simpl in H. apply andb_prop in H as [_ Hl].
  destruct (Nat.eqb_spec (stage c) k) as [E | _].
  - simpl. rewrite (increasing_skips k (S (stage c)) l Hl) by lia.
    simpl. lia.
  - apply (IH _ Hl).
Qed.

(** X3.  Every run calls the owner lookup first, and its calls follow the
    order of the script: lookup, key validation, latest version,
    installation, scan, summary.  No stage is called twice, and none is
    called after a later one. *)
Theorem calls_in_order (w : World) :
  (exists rest,
      calls (trace (run w))
      = GetUser (octokit w) (githubUsername w) :: rest)
  /\ increasing 0 (calls (trace (run w))) = true
  /\ forall k,
       length (List.filter (fun c => stage c =? k) (calls (trace (run w))))
       <= 1.
Proof.
  split; [| split].
  - destruct (run_calls w) as (tail & -> & _). eauto.
  - apply run_calls_increasing.
  - intros k. apply (increasing_once k 0), run_calls_increasing.
Qed.

(** ** When the key is validated *)

(** X4.  [keygen.ValidateKey] is called exactly when the lookup left
    [shouldValidate] true, [GITLEAKS_LICENSE] is set and not empty, and the
    event is supported; it is then called once, with the event payload. *)
Theorem key_validated_when_due (w : World) (sv : bool) :
  snd (lookup w) = Continue sv ->
  count is_validate (trace (run w))
  = (if sv && JS.truthy (process_env w "GITLEAKS_LICENSE")
        && includes supportedEvents (eventType w)
     then 1 else 0)
  /\ forall ev, In (Call (ValidateKey ev)) (trace (run w)) ->
                ev = eventJSON w.
Proof.
  intros Hl. destruct (lookup_continues w) as [Hl' _].
  rewrite Hl' in Hl. injection Hl as <-.
  split.
  - rewrite run_calls_not_validate. destruct (front_gated w) as [Hfc _].
    unfold count. rewrite Hfc. cbn [List.filter is_validate].
    rewrite gated_calls, validate_calls.
    pose proof (install_not_validate w) as Hi. unfold count in Hi.
    destruct (shouldValidate w); cbn [andb negb];
      [destruct (JS.truthy _); cbn [andb negb]; [| reflexivity] |];
      (destruct (includes _ _); cbn [andb negb]; [| reflexivity]);
      cbn [app List.filter is_validate length].
    + destruct (snd (validate w true)); [now rewrite Hi | reflexivity].
    + exact Hi.
  - intros ev Hin.
    apply early_call_in_gated in Hin; [| reflexivity | discriminate].
    rewrite gated_calls, validate_calls, install_calls in Hin.
    destruct (shouldValidate w && _); [destruct Hin |].
    destruct (negb _); [destruct Hin |].
    apply in_app_or in Hin as [Hin | Hin].
    + destruct (shouldValidate w); [| destruct Hin].
      destruct Hin as [Hin | []]. congruence.
    + destruct (snd (validate w (shouldValidate w))); [| destruct Hin].
      destruct (JS.truthy _); [| destruct (gitleaks_Latest _ _)];
        simpl in Hin; intuition discriminate.
Qed.

Lemma key_validated_when_due_witness :
  snd (lookup Sample.org_licensed) = Continue true
  /\ count is_validate (trace (run Sample.org_licensed)) = 1.
Proof.
  assert (Hl : snd (lookup Sample.org_licensed) = Continue true)
    by reflexivity.
  split; [exact Hl |].
  apply (key_validated_when_due Sample.org_licensed true Hl).
Defined.

(** ** How a run can stop *)

Section Stops.

Variable w : World.

Lemma ends_well_bind {A B} (m : M A) (k : A -> M B) :
  ends_well w m ->
  (forall a, snd m = Continue a -> ends_well w (k a)) ->
  ends_well w (bind m k).
Proof.
  unfold ends_well. destruct m as [t [a | s]]; simpl; [| auto].
  intros _ Hk. specialize (Hk a eq_refl).
  destruct (k a) as [t' [b | [| code | err]]]; simpl in *; auto.
  - destruct Hk as (Hc & t0 & l & msg & -> & Hl). split; [exact Hc |].
    exists (t ++ t0), l, msg. now rewrite app_assoc.
  - destruct Hk as (t0 & c & -> & Hr & Hs).
    exists (t ++ t0), c. now rewrite app_assoc.
Qed.

Lemma rejection_final_bind {A B} (m : M A) (k : A -> M B) :
  rejection_final w m ->
  (forall a, snd m = Continue a -> rejection_final w (k a)) ->
  rejection_final w (bind m k).
Proof.
  unfold rejection_final. destruct m as [t [a | s]]; simpl;
    [| intros Hm _ c err Hin Hs Hr;
       destruct (Hm c err Hin Hs Hr) as [E Ht]; split; [congruence | exact Ht]].
  intros Hm Hk c err Hin Hs Hr. specialize (Hk a eq_refl c err).
  destruct (k a) as [t' r]; simpl in *.
  apply in_app_or in Hin as [Hin | Hin].
  - destruct (Hm c err Hin Hs Hr) as [? _]. discriminate.
  - destruct (Hk Hin Hs Hr) as [-> [t0 ->]]. split; [reflexivity |].
    exists (t ++ t0). now rewrite app_assoc.
Qed.

(** A computation that makes no call and does not stop. *)
Lemma quiet_ok {A} (m : M A) :
  calls (trace m) = [] -> (exists a, snd m = Continue a) ->
  ends_well w m /\ rejection_final w m.
Proof.
  intros Hc [a Ha]. split.
  - unfold ends_well. now rewrite Ha.
  - intros c err Hin. apply In_calls in Hin. rewrite Hc in Hin.
    destruct Hin.
Qed.

(** An awaited call, other than the lookup. *)
Lemma await_ok {A} (c : call) (p : settled A) :
  response_error w c = rejection p -> stage c <> 0 ->
  ends_well w (await c p) /\ rejection_final w (await c p).
Proof.
  intros Hr Hs. split.
  - unfold ends_well. destruct p as [a | err]; simpl; [exact I |].
    exists [], c. auto.
  - intros c' err' [Hin | []] _ Hr'. injection Hin as <-.
    rewrite Hr in Hr'. destruct p as [a | err]; [discriminate |].
    injection Hr' as <-. split; [reflexivity |]. now exists [].
Qed.

(** A line of log at error or warning level, then an exit. *)
Lemma log_exit_ok {A} (l : level) (msg : string) (code : Z) :
  l = Error \/ l = Warning -> code <> 0%Z ->
  ends_well w (A := A) (log l msg ;; process_exit code)
  /\ rejection_final w (A := A) (log l msg ;; process_exit code).
Proof.
  intros Hl Hc. split.
  - unfold ends_well. simpl. split; [exact Hc |].
    exists [], l, msg. auto.
  - intros c err [Hin | []]. discriminate.
Qed.

Lemma startup_ok : ends_well w (startup w) /\ rejection_final w (startup w).
Proof.
  destruct (startup_continues w) as [Hs Hc]. apply quiet_ok; eauto.
Qed.

Lemma lookup_ok : ends_well w (lookup w) /\ rejection_final w (lookup w).
Proof.
  destruct (lookup_continues w) as [Hs Hc]. split.
  - unfold ends_well. now rewrite Hs.
  - intros c err Hin Hst. apply In_calls in Hin. rewrite Hc in Hin.
    destruct Hin as [<- | []]. now destruct Hst.
Qed.

Lemma license_check_ok sv :
  ends_well w (license_check w sv) /\ rejection_final w (license_check w sv).
Proof.
  unfold license_check. destruct (sv && _); cbn [when].
  - apply log_exit_ok; [auto | discriminate].
  - apply quiet_ok; [reflexivity | now exists tt].
Qed.

Lemma check_event_ok :
  ends_well w (check_event w) /\ rejection_final w (check_event w).
Proof.
  unfold check_event. destruct (negb _); cbn [when].
  - apply log_exit_ok; [auto | discriminate].
  - apply quiet_ok; [reflexivity | now exists tt].
Qed.

Lemma validate_ok sv :
  ends_well w (validate w sv) /\ rejection_final w (validate w sv).
Proof.
  unfold validate. destruct sv; cbn [when].
  - apply await_ok; [reflexivity | discriminate].
  - apply quiet_ok; [reflexivity | now exists tt].
Qed.

Lemma log_ok l msg :
  ends_well w (log l msg) /\ rejection_final w (log l msg).
Proof. apply quiet_ok; [reflexivity | now exists tt]. Qed.

Lemma ret_ok {A} (a : A) : ends_well w (ret a) /\ rejection_final w (ret a).
Proof. apply quiet_ok; [reflexivity | now exists a]. Qed.

Lemma bind_ok {A B} (m : M A) (k : A -> M B) :
  ends_well w m /\ rejection_final w m ->
  (forall a, ends_well w (k a) /\ rejection_final w (k a)) ->
  ends_well w (bind m k) /\ rejection_final w (bind m k).
Proof.
  intros [He Hr] Hk. split.
  - apply ends_well_bind; [exact He |]. intros a _. apply Hk.
  - apply rejection_final_bind; [exact Hr |]. intros a _. apply Hk.
Qed.

Lemma install_ok : ends_well w (install w) /\ rejection_final w (install w).
Proof.
  unfold install. apply bind_ok.
  - destruct (JS.truthy _); [apply ret_ok |].
    apply await_ok; [reflexivity | discriminate].
  - intros v. apply bind_ok; [apply log_ok |]. intros _.
    apply bind_ok; [| intros p; apply ret_ok].
    apply await_ok; [reflexivity | discriminate].
Qed.

Lemma dispatch_ok si ec :
  ends_well w (dispatch w si ec) /\ rejection_final w (dispatch w si ec).
Proof.
  unfold dispatch. apply bind_ok; [apply log_ok |]. intros _.
  destruct (strict_eq _ _);
    [apply await_ok; [reflexivity | discriminate] |].
  destruct (strict_eq _ _);
    [apply await_ok; [reflexivity | discriminate] |].
  destruct (strict_eq _ _);
    [apply await_ok; [reflexivity | discriminate] |].
  apply ret_ok.
Qed.

Lemma report_ok e : ends_well w (report w e) /\ rejection_final w (report w e).
Proof.
  unfold report. destruct (gitleaksEnableSummary w); cbn [when].
  - apply await_ok; [reflexivity | discriminate].
  - apply ret_ok.
Qed.

Lemma interpret_ok e :
  ends_well w (interpret w e) /\ rejection_final w (interpret w e).
Proof.
  unfold interpret. destruct (Z.eqb_spec e 0); [apply log_ok |].
  destruct (e =? _)%Z; apply log_exit_ok; auto; discriminate.
Qed.

Lemma run_ok : ends_well w (run w) /\ rejection_final w (run w).
Proof.
  unfold run, finally, start.
  apply bind_ok; [apply startup_ok |]. intros _.
  apply bind_ok; [apply lookup_ok |]. intros sv.
  apply bind_ok; [apply license_check_ok |]. intros _.
  apply bind_ok; [apply check_event_ok |]. intros _.
  apply bind_ok; [apply validate_ok |]. intros _.
  apply bind_ok; [apply install_ok |]. intros si.
  apply bind_ok; [apply dispatch_ok |]. intros e.
  apply bind_ok; [apply report_ok |]. intros _.
  apply interpret_ok.
Qed.

Lemma increasing_bound (lo : nat) (l : list call) (c : call) :
  increasing lo (l ++ [c]) = true -> lo <= stage c.
Proof.
  revert lo. induction l as [| y l IH]; intros lo H; simpl in H;
    apply andb_prop in H as [H1 H2]; apply Nat.leb_le in H1;
    [exact H1 |].
  apply IH in H2. lia.
Qed.

(** In a list whose stages increase, nothing has a later stage than the
    last element. *)
Lemma increasing_last (lo : nat) (l : list call) (c c' : call) :
  increasing lo (l ++ [c]) = true -> In c' (l ++ [c]) -> stage c' <= stage c.
Proof.
  revert lo. induction l as [| x l IH]; intros lo H Hin; simpl in *.
  - destruct Hin as [<- | []]. lia.
  - apply andb_prop in H as [_ Hl]. destruct Hin as [<- | Hin].
    + apply increasing_bound in Hl. lia.
    + apply (IH _ Hl Hin).
Qed.

End Stops.

(** ** Rejections *)

(** X5.  When a collaborator called by [start] (key validation, latest
    version, installation, scan or summary writer) throws, the run ends
    there: the promise of [start] rejects with that error, the call is the
    last event of the run, no collaborator of a later stage is called and
    the controller sets no exit code.  In particular a summary that cannot
    be written hides the exit code of a scan that found leaks. *)
Theorem rejected_call_ends_run (w : World) (c : call) (err : string) :
  In (Call c) (trace (run w)) ->
  stage c <> 0 ->
  response_error w c = Some err ->
  final (run w) = Unhandled err
  /\ exit_status (final (run w)) = None
  /\ (exists t, trace (run w) = t ++ [Call c])
  /\ forall c', In (Call c') (trace (run w)) -> stage c' <= stage c.
Proof.
  intros Hin Hs Hr.
  destruct (run_ok w) as [_ Hf].
  destruct (Hf c err Hin Hs Hr) as [Hsnd [t Ht]].
  assert (Hfin : final (run w) = Unhandled err)
    by (unfold final; now rewrite Hsnd).
  rewrite Hfin. split; [reflexivity |]. split; [reflexivity |].
  split; [eauto |].
  intros c' Hin'. apply In_calls in Hin'.
  pose proof (run_calls_increasing w) as Hinc.
  rewrite Ht, calls_app in Hinc, Hin'. simpl in Hinc, Hin'.
  apply (increasing_last 0 (calls t) c c' Hinc Hin').
Qed.

Lemma rejected_call_ends_run_witness :
  In (Call (SummaryWrite 2 Sample.push_event))
    (trace (run Worlds.summary_fails))
  /\ response_error Worlds.summary_fails (SummaryWrite 2 Sample.push_event)
     = Some "Error: EACCES"
  /\ final (run Worlds.summary_fails) = Unhandled "Error: EACCES".
Proof.
  assert (Hin : In (Call (SummaryWrite 2 Sample.push_event))
                  (trace (run Worlds.summary_fails)))
    by (vm_compute; do 8 right; left; reflexivity).
  assert (Hr : response_error Worlds.summary_fails
                 (SummaryWrite 2 Sample.push_event) = Some "Error: EACCES")
    by reflexivity.
  split; [exact Hin |]. split; [exact Hr |].
  apply (rejected_call_ends_run Worlds.summary_fails _ _ Hin); [| exact Hr].
  discriminate.
Defined.

(** X6.  A run is left with an unhandled rejection only when its last
    event is a call, other than the owner lookup, that threw that very
    error: the controller invents no rejection and a failed lookup never
    rejects the run. *)
Theorem unhandled_has_cause (w : World) (err : string) :
  final (run w) = Unhandled err ->
  exists t c,
    trace (run w) = t ++ [Call c]
    /\ response_error w c = Some err
    /\ stage c <> 0.
Proof.
  intros Hf. destruct (run_ok w) as [He _].
  unfold ends_well in He. unfold final in Hf.
  destruct (snd (run w)) as [[] | s]; [discriminate |]. subst s. exact He.
Qed.

Lemma unhandled_has_cause_witness :
  final (run Worlds.install_fails) = Unhandled "Error: 404"
  /\ exists t c,
       trace (run Worlds.install_fails) = t ++ [Call c]
       /\ response_error Worlds.install_fails c = Some "Error: 404"
       /\ stage c <> 0.
Proof.
  assert (Hf : final (run Worlds.install_fails) = Unhandled "Error: 404")
    by reflexivity.
  split; [exact Hf |].
  apply (unhandled_has_cause Worlds.install_fails _ Hf).
Defined.

(** ** Exit codes *)

Lemma gated_exit_one (w : World) (code : Z) :
  snd (gated w) = Stop (Exited code) -> code = 1%Z.
Proof.
  destruct (license_check_cases w (shouldValidate w))
    as [(Hv & Hl & _) | [Hg _]].
  - rewrite (gated_license_missing w Hv Hl). simpl. congruence.
  - destruct (check_event_cases w) as [(He & _) | [He _]].
    + destruct (gated_unsupported w He) as [-> _]. congruence.
    + rewrite (gated_open w Hg He), outcome_bind.
      unfold validate, install. intros H. clear Hg.
      destruct (shouldValidate w); cbn [when] in H;
        [destruct (keygen_ValidateKey _ _); simpl in H; [| discriminate] |];
        (destruct (JS.truthy (process_env w "GITLEAKS_VERSION")); simpl in H;
         [| destruct (gitleaks_Latest _ _); simpl in H; [| discriminate]];
         destruct (gitleaks_Install _ _); simpl in H; discriminate).
Qed.

(** X7.  Whenever the controller ends the process itself, the exit code is
    not [0], the last thing logged before is a line at error or warning
    level, and the code is [1] or the code the scan executor returned. *)
Theorem exit_is_nonzero_and_logged (w : World) (code : Z) :
  final (run w) = Exited code ->
  code <> 0%Z
  /\ (exists t l msg,
         trace (run w) = t ++ [Log l msg] /\ (l = Error \/ l = Warning))
  /\ (code = 1%Z \/ scan_returned w code).
Proof.
  intros Hf. destruct (run_ok w) as [He _].
  unfold ends_well in He.
  assert (Hs : snd (run w) = Stop (Exited code)).
  { unfold final in Hf. destruct (snd (run w)); [discriminate | congruence]. }
  rewrite Hs in He. destruct He as [Hc Hl].
  split; [exact Hc |]. split; [exact Hl |].
  destruct (run_shape w) as [(s & Hfs & E) | (c & r & Hans & _ & E)].
  - left. rewrite E in Hs. simpl in Hs. injection Hs as ->.
    destruct (front_gated w) as [_ Hg]. rewrite Hg in Hfs.
    apply (gated_exit_one w code Hfs).
  - assert (Hin : In (Call c) (trace (run w))).
    { rewrite E. cbn [trace fst]. apply in_or_app. right. right. now left. }
    rewrite E in Hs. cbn [snd] in Hs.
    destruct r as [e | err]; [| discriminate].
    unfold after_scan in Hs. rewrite outcome_bind in Hs.
    unfold report in Hs.
    assert (Hi : snd (interpret w e) = Stop (Exited code)).
    { destruct (gitleaksEnableSummary w); cbn [when] in Hs;
        [destruct (summary_Write _ _ _); simpl in Hs; [| discriminate] |];
        exact Hs. }
    unfold interpret in Hi.
    destruct (e =? 0)%Z; [discriminate |].
    destruct (e =? _)%Z; simpl in Hi; injection Hi as <-; [now left |].
    right. exists c. auto.
Qed.

Lemma exit_is_nonzero_and_logged_witness :
  final (run Sample.user_push_error) = Exited 17
  /\ (17 = 1 \/ scan_returned Sample.user_push_error 17)%Z.
Proof.
  assert (Hf : final (run Sample.user_push_error) = Exited 17)
    by reflexivity.
  split; [exact Hf |].
  apply (exit_is_nonzero_and_logged Sample.user_push_error 17 Hf).
Defined.

(** X8.  A run ends without error, leaving the process its status [0],
    exactly when the scan executor was called and returned [0] and the
    summary, if enabled, was written; the event check makes the branch of
    the dispatch that would keep the initial [exitCode = 0] without a scan
    unreachable.  Such a run ends on the no-leaks line. *)
Theorem completes_iff_clean_scan (w : World) :
  (final (run w) = Completed
   <-> scan_returned w 0
       /\ (gitleaksEnableSummary w = false
           \/ summary_Write (collab w) 0 (eventJSON w) = Resolved tt))
  /\ (final (run w) = Completed ->
      exists t, trace (run w) = t ++ [Log Info "✅ No leaks detected"]).
Proof.
  assert (Hfwd : final (run w) = Completed ->
                 exists c, In (Call c) (trace (run w))
                           /\ answer w c = Some (Resolved 0%Z)
                           /\ (gitleaksEnableSummary w = false
                               \/ summary_Write (collab w) 0 (eventJSON w)
                                  = Resolved tt)).
  { intros Hf. destruct (run_ok w) as [He _]. unfold ends_well in He.
    destruct (run_shape w) as [(s & Hfs & E) | (c & r & Hans & _ & E)].
    - rewrite E in He, Hf. unfold final in Hf. simpl in He, Hf.
      subst s. destruct He.
    - assert (Hin : In (Call c) (trace (run w))).
      { rewrite E. cbn [trace fst]. apply in_or_app. right. right.
        now left. }
      exists c. split; [exact Hin |].
      rewrite E in Hf. unfold final in Hf. cbn [snd] in Hf.
      destruct r as [e | err]; [| discriminate].
      unfold after_scan, report, interpret in Hf.
      rewrite outcome_bind in Hf.
      destruct (e =? 0)%Z eqn:E0.
      + apply Z.eqb_eq in E0. subst e. split; [exact Hans |].
        destruct (gitleaksEnableSummary w); [| now left].
        right. cbn [when] in Hf.
        destruct (summary_Write _ _ _) as [[] |]; [reflexivity |].
        discriminate.
      + destruct (gitleaksEnableSummary w); cbn [when] in Hf;
          [destruct (summary_Write _ _ _); simpl in Hf; [| discriminate] |];
          destruct (e =? gitleaks_EXIT_CODE_LEAKS_DETECTED (collab w))%Z;
          simpl in Hf; discriminate. }
  split; [split |].
  - intros Hf. destruct (Hfwd Hf) as (c & Hin & Hans & Hw).
    split; [exists c; auto | exact Hw].
  - intros [(c & Hin & Hans) Hw].
    destruct (scan_call_in_run w c _ Hin Hans) as [_ E].
    destruct (after_scan_interpret w 0 Hw) as [t Ht].
    rewrite E, Ht. reflexivity.
  - intros Hf. destruct (Hfwd Hf) as (c & Hin & Hans & Hw).
    destruct (scan_call_in_run w c _ Hin Hans) as [_ E].
    destruct (after_scan_interpret w 0 Hw) as [t Ht].
    rewrite E, Ht. cbn [trace fst interpret Z.eqb log].
    eexists (_ ++ _ :: _ :: t). rewrite <- app_assoc. reflexivity.
Qed.

(** ** Which scan is called *)

(** X9.  [gitleaks.ScanPullRequest] is called only for a [pull_request]
    event, with the upload flag, the REST client, the event payload and the
    event name; a run that calls it does not call [gitleaks.Scan]. *)
Theorem pull_request_scan (w : World) (up : bool) (o : Octokit)
    (ev : EventJSON) (et : option string) :
  In (Call (ScanPullRequest up o ev et)) (trace (run w)) ->
  eventType w = Some "pull_request"
  /\ up = gitleaksEnableUploadArtifact w
  /\ o = octokit w
  /\ ev = eventJSON w
  /\ et = Some "pull_request"
  /\ forall up' si et', ~ In (Call (Scan up' si et')) (trace (run w)).
Proof.
  intros Hin.
  destruct (scan_call_chosen w (ScanPullRequest up o ev et) eq_refl Hin)
    as (He & si & Hf & Hc).
  destruct (strict_eq (eventType w) "pull_request") eqn:Hpr;
    [| discriminate].
  assert (Het : eventType w = Some "pull_request").
  { unfold strict_eq in Hpr. destruct (eventType w) as [s |];
      [| discriminate].
    apply String.eqb_eq in Hpr. now subst s. }
  injection Hc as -> -> -> ->.
  repeat (split; [solve [auto] |]).
  intros up' si' et' Hin'.
  destruct (scan_call_chosen w (Scan up' si' et') eq_refl Hin')
    as (_ & si0 & _ & Hc').
  rewrite Hpr in Hc'. discriminate.
Qed.

Lemma pull_request_scan_witness :
  In (Call (ScanPullRequest true (octokit Sample.org_licensed)
              Sample.push_event (Some "pull_request")))
    (trace (run Sample.org_licensed))
  /\ eventType Sample.org_licensed = Some "pull_request".
Proof.
  assert (Hin : In (Call (ScanPullRequest true (octokit Sample.org_licensed)
                            Sample.push_event (Some "pull_request")))
                  (trace (run Sample.org_licensed)))
    by (vm_compute; do 7 right; left; reflexivity).
  split; [exact Hin |].
  apply (pull_request_scan Sample.org_licensed _ _ _ _ Hin).
Defined.

(** ** Values of the feature flags *)

Lemma skip_ws_blank (s : string) :
  (forall c, In c (list_ascii_of_string s) -> JS.ws1 c = true) ->
  JS.skip_ws s = "".
Proof.
  induction s as [| c s IH]; intros H; [reflexivity |].
  simpl. rewrite (H c) by (now left). destruct s; [reflexivity |].
  apply IH. intros c' Hc'. apply H. now right.
Qed.

Lemma no_summary_when_disabled (w : World) :
  gitleaksEnableSummary w = false ->
  count is_summary_write (trace (run w)) = 0.
Proof.
  intros Hf. destruct (front_quiet w) as [_ Hq].
  destruct (run_shape w) as [(s & _ & E) | (c & r & Hans & _ & E)];
    rewrite E; cbn [trace fst]; fold (trace (front w)); [exact Hq |].
  rewrite count_app, Hq. unfold count. simpl.
  fold (trace (after_scan w r)). rewrite after_scan_calls, Hf.
  pose proof (answered_is_scan _ _ _ Hans).
  destruct c; try discriminate; destruct r; reflexivity.
Qed.

(** X10.  A value made only of spaces, tabs and line breaks clears a
    feature flag, like the empty string: with [GITLEAKS_ENABLE_SUMMARY] set
    to such a value no run writes the summary. *)
Theorem blank_value_disables (w : World) (s : string) :
  (forall c, In c (list_ascii_of_string s) -> JS.ws1 c = true) ->
  (process_env w "GITLEAKS_ENABLE_SUMMARY" = Some s ->
   gitleaksEnableSummary w = false
   /\ count is_summary_write (trace (run w)) = 0)
  /\ (process_env w "GITLEAKS_ENABLE_UPLOAD_ARTIFACT" = Some s ->
      gitleaksEnableUploadArtifact w = false).
Proof.
  intros Hs.
  assert (Hz : JS.loose_eq_zero (Some s) = true).
  { unfold JS.loose_eq_zero, JS.string_to_number.
    now rewrite (skip_ws_blank s Hs). }
  split; intros Hv.
  - assert (Hf : gitleaksEnableSummary w = false).
    { unfold gitleaksEnableSummary. rewrite Hv, Hz.
      now rewrite orb_true_r. }
    split; [exact Hf | apply (no_summary_when_disabled w Hf)].
  - unfold gitleaksEnableUploadArtifact. rewrite Hv, Hz.
    now rewrite orb_true_r.
Qed.

Lemma blank_value_disables_witness :
  (forall c, In c (list_ascii_of_string "  ") -> JS.ws1 c = true)
  /\ process_env Worlds.blank_summary "GITLEAKS_ENABLE_SUMMARY" = Some "  "
  /\ count is_scan (trace (run Worlds.blank_summary)) = 1
  /\ count is_summary_write (trace (run Worlds.blank_summary)) = 0.
Proof.
  assert (Hs : forall c, In c (list_ascii_of_string "  ") ->
                         JS.ws1 c = true)
    by (intros c [<- | [<- | []]]; reflexivity).
  assert (Hv : process_env Worlds.blank_summary "GITLEAKS_ENABLE_SUMMARY"
               = Some "  ") by reflexivity.
  split; [exact Hs |]. split; [exact Hv |]. split; [reflexivity |].
  destruct (blank_value_disables Worlds.blank_summary "  " Hs) as [H _].
  apply (H Hv).
Defined.

Lemma digits_step (radix : N) (c : ascii) (r : string) (len acc k : N) :
  JS.digit_in radix c = Some k ->
  JS.digits radix (String c r) len acc
  = JS.digits radix r (len + 1)%N (acc * radix + k)%N.
Proof. intros H. simpl. now rewrite H. Qed.

(** The digits of a decimal numeral are read back by [JS.digits]. *)
Lemma digits_of_uint_acc (d : Decimal.uint) (len : N) (acc : positive) :
  JS.digits 10 (NilEmpty.string_of_uint d) len (N.pos acc)
  = ((len + N.of_nat (Decimal.nb_digits d))%N,
     N.pos (Pos.of_uint_acc d acc), "").
Proof.
  revert len acc.
  induction d; intros len acc; cbn [NilEmpty.string_of_uint];
    [cbn [JS.digits Decimal.nb_digits N.of_nat]; now rewrite N.add_0_r | ..].
  all: match goal with
       | |- JS.digits _ (String ?c _) _ _ = _ =>
           let k := eval vm_compute in (JS.digit_in 10 c) in
           match k with
           | Some ?k' => rewrite (digits_step 10 c _ _ _ k' eq_refl)
           end
       end.
  all: match goal with
       | |- JS.digits _ _ _ ?a = (_, N.pos ?p, _) =>
           let p' := eval cbn [Pos.of_uint_acc] in p in
           match p' with
           | Pos.of_uint_acc _ ?q => replace a with (N.pos q) by lia
           end
       end.
  all: rewrite IHd; cbn [Pos.of_uint_acc Decimal.nb_digits];
    f_equal; f_equal; lia.
Qed.

Lemma digits_of_uint (d : Decimal.uint) (len : N) :
  JS.digits 10 (NilEmpty.string_of_uint d) len 0
  = ((len + N.of_nat (Decimal.nb_digits d))%N, Pos.of_uint d, "").
Proof.
  revert len.
  induction d; intros len; cbn [NilEmpty.string_of_uint];
    [cbn [JS.digits Decimal.nb_digits N.of_nat Pos.of_uint];
     now rewrite N.add_0_r | ..].
  all: match goal with
       | |- JS.digits _ (String ?c _) _ _ = _ =>
           let k := eval vm_compute in (JS.digit_in 10 c) in
           match k with
           | Some ?k' => rewrite (digits_step 10 c _ _ _ k' eq_refl)
           end
       end.
  all: match goal with
       | |- JS.digits _ _ _ ?a = _ =>
           let a' := eval vm_compute in a in change a with a'
       end.
  all: try (rewrite digits_of_uint_acc).
  all: try (rewrite IHd).
  all: cbn [Pos.of_uint Decimal.nb_digits]; f_equal; f_equal; lia.
Qed.

(** The numeral of a positive number is a decimal literal whose value is
    not zero. *)
Lemma numeral_unsigned (p : positive) :
  JS.unsigned_decimal (NilEmpty.string_of_uint (Pos.to_uint p))
  = Some (JS.NonZero, "").
Proof.
  unfold JS.unsigned_decimal. rewrite digits_of_uint.
  rewrite DecimalPos.Unsigned.of_to.
  pose proof (DecimalPos.Unsigned.to_uint_nonnil p) as Hn.
  destruct (Pos.to_uint p); [now destruct Hn | ..]; reflexivity.
Qed.

(** A numeral begins with no white space, no radix prefix, no sign and is
    not [Infinity]. *)
Lemma numeral_plain (d : Decimal.uint) :
  d <> Decimal.Nil ->
  let s := NilEmpty.string_of_uint d in
  JS.skip_ws s = s /\ JS.radix_prefix s = None /\ JS.strip_sign s = s
  /\ String.prefix "Infinity" s = false /\ JS.is_empty s = false
  /\ String.eqb s "false" = false
  /\ JS.skip_ws (String "-" s) = String "-" s
  /\ JS.radix_prefix (String "-" s) = None.
Proof.
  intros Hn. destruct d as [| d | d | d | d | d | d | d | d | d | d];
    [now destruct Hn | ..]; clear Hn; cbn [NilEmpty.string_of_uint];
    (destruct d as [| d | d | d | d | d | d | d | d | d | d];
     cbn [NilEmpty.string_of_uint];
     [| destruct (NilEmpty.string_of_uint d) ..];
     repeat split; reflexivity).
Qed.

(** The numeral of an integer converts to a zero exactly when the integer
    is [0]. *)
Lemma string_to_number_numeral (n : Z) :
  JS.string_to_number (JS.number_to_string n)
  = if (n =? 0)%Z then JS.Zero else JS.NonZero.
Proof.
  destruct n as [| p | p]; [reflexivity | |];
    unfold JS.number_to_string;
    cbn [Z.to_int NilEmpty.string_of_int Z.eqb];
    destruct (numeral_plain (Pos.to_uint p)
                (DecimalPos.Unsigned.to_uint_nonnil p))
      as (H1 & H2 & H3 & H4 & H5 & _ & H7 & H8);
    unfold JS.string_to_number, JS.numeric_literal.
  - rewrite H1, H5, H2. cbn zeta. rewrite H3, H4, numeral_unsigned.
    reflexivity.
  - rewrite H7, H8. cbn [JS.is_empty JS.strip_sign JS.code N_of_ascii
                         N_of_digits]. simpl N.eqb. cbn [orb].
    cbn zeta. rewrite H4, numeral_unsigned. reflexivity.
Qed.

Lemma numeral_not_false (n : Z) :
  JS.loose_eq_string (Some (JS.number_to_string n)) "false" = false.
Proof.
  destruct n as [| p | p]; [reflexivity | |];
    unfold JS.number_to_string, JS.loose_eq_string;
    cbn [Z.to_int NilEmpty.string_of_int].
  - now destruct (numeral_plain (Pos.to_uint p)
                    (DecimalPos.Unsigned.to_uint_nonnil p))
      as (_ & _ & _ & _ & _ & H & _).
  - reflexivity.
Qed.

(** X11.  When a feature flag's variable holds the decimal numeral of an
    integer, the flag is cleared by [0] only: every other integer, negative
    ones included, leaves the feature enabled. *)
Theorem integer_value_of_flag (w : World) (n : Z) :
  (process_env w "GITLEAKS_ENABLE_SUMMARY" = Some (JS.number_to_string n) ->
   gitleaksEnableSummary w = negb (n =? 0)%Z)
  /\ (process_env w "GITLEAKS_ENABLE_UPLOAD_ARTIFACT"
      = Some (JS.number_to_string n) ->
      gitleaksEnableUploadArtifact w = negb (n =? 0)%Z).
Proof.
  assert (Hz : JS.loose_eq_zero (Some (JS.number_to_string n))
               = (n =? 0)%Z).
  { unfold JS.loose_eq_zero. rewrite string_to_number_numeral.
    now destruct (n =? 0)%Z. }
  unfold gitleaksEnableSummary, gitleaksEnableUploadArtifact.
  split; intros ->; rewrite Hz, numeral_not_false;
    now destruct (n =? 0)%Z.
Qed.

(** ** What reaches the summary and the scan *)

(** X12.  The summary writer is called only when the summary is enabled
    and the scan executor has returned; it is given the event payload and
    the exit code as the scan returned it, the leak sentinel included. *)
Theorem summary_only_after_scan (w : World) (e : Z) (ev : EventJSON) :
  In (Call (SummaryWrite e ev)) (trace (run w)) ->
  gitleaksEnableSummary w = true
  /\ ev = eventJSON w
  /\ scan_returned w e.
Proof.
  intros Hin. destruct (front_quiet w) as [_ Hq].
  destruct (run_shape w) as [(s & _ & E) | (c & r & Hans & _ & E)];
    rewrite E in Hin; cbn [trace fst] in Hin.
  - apply (count_0_In _ _ _ Hq) in Hin. discriminate.
  - assert (Hc : In (Call c) (trace (run w))).
    { rewrite E. cbn [trace fst]. apply in_or_app. right. right.
      now left. }
    apply in_app_or in Hin as [Hin | [Hin | [Hin | Hin]]].
    + apply (count_0_In _ _ _ Hq) in Hin. discriminate.
    + discriminate.
    + injection Hin as Hc'. subst c. discriminate.
    + apply In_calls in Hin. fold (trace (after_scan w r)) in Hin.
      rewrite after_scan_calls in Hin.
      destruct r as [e' |]; [| destruct Hin].
      destruct (gitleaksEnableSummary w); [| destruct Hin].
      destruct Hin as [Hin | []]. injection Hin as He Hev. subst e' ev.
      split; [reflexivity |]. split; [reflexivity |]. exists c. auto.
Qed.

Lemma summary_only_after_scan_witness :
  In (Call (SummaryWrite 2 Sample.push_event))
    (trace (run Sample.user_push_leaks))
  /\ scan_returned Sample.user_push_leaks 2.
Proof.
  assert (Hin : In (Call (SummaryWrite 2 Sample.push_event))
                  (trace (run Sample.user_push_leaks)))
    by (vm_compute; do 7 right; left; reflexivity).
  split; [exact Hin |].
  apply (summary_only_after_scan Sample.user_push_leaks _ _ Hin).
Defined.

Lemma install_path (w : World) (si : ScanInfo) :
  snd (install w) = Continue si ->
  exists v,
    In (Install v) (calls (trace (install w)))
    /\ gitleaks_Install (collab w) v = Resolved (gitleaksPath si).
Proof.
  rewrite install_calls. unfold install.
  destruct (JS.truthy (process_env w "GITLEAKS_VERSION")); simpl.
  - destruct (gitleaks_Install _ _) as [p |] eqn:E; simpl; intros H;
      [| discriminate].
    injection H as <-. eexists. split; [now left | exact E].
  - destruct (gitleaks_Latest _ _) as [v |]; simpl; [| discriminate].
    destruct (gitleaks_Install _ _) as [p |] eqn:E; simpl; intros H;
      [| discriminate].
    injection H as <-. exists v. split; [right; now left | exact E].
Qed.

(** X13.  Every scan call comes after an installation of the engine
    that succeeded: the run's trace has a [gitleaks.Install] call before
    the scan call, that call returned a path, and this path is the
    [gitleaksPath] handed to [gitleaks.Scan]. *)
Theorem scan_uses_installed_engine (w : World) (c : call) :
  is_scan c = true ->
  In (Call c) (trace (run w)) ->
  exists v p before_install after_install,
    trace (run w) = before_install ++ Call (Install v) :: after_install
    /\ In (Call c) after_install
    /\ In (Call (Install v)) (trace (run w))
    /\ gitleaks_Install (collab w) v = Resolved p
    /\ forall up si et, c = Scan up si et -> gitleaksPath si = p.
Proof.
  intros Hc Hin.
  destruct (scan_call_chosen w c Hc Hin) as (He & si & Hf & Hch).
  destruct (front_goes_on w si Hf) as (Hg & _).
  destruct (front_gated w) as [Hfc Hfs]. rewrite Hfs in Hf.
  pose proof (gated_calls w) as Hgc.
  rewrite (gated_open w Hg He), outcome_bind in Hf.
  assert (Hb : shouldValidate w
               && negb (JS.truthy (process_env w "GITLEAKS_LICENSE"))
               = false)
    by (destruct Hg as [-> | ->]; [reflexivity | apply andb_false_r]).
  rewrite Hb, He in Hgc. cbn [negb] in Hgc.
  destruct (snd (validate w (shouldValidate w))); [| discriminate].
  destruct (install_path w si Hf) as (v & Hv & Hp).
  assert (Hfront : In (Call (Install v)) (trace (front w))).
  { apply In_calls. rewrite Hfc, Hgc. right. apply in_or_app. now right. }
  destruct (run_trace_front w) as [t Ht].
  destruct (in_split _ _ Hfront) as (l1 & l2 & Hsplit).
  destruct (front_quiet w) as [Hq _].
  exists v, (gitleaksPath si), l1, (l2 ++ t).
  split; [| split; [| split; [| split; [exact Hp |]]]].
  - rewrite Ht, Hsplit, <- app_assoc. reflexivity.
  - rewrite Ht in Hin. apply in_app_or in Hin as [Hin | Hin].
    + apply (count_0_In _ _ _ Hq) in Hin. congruence.
    + apply in_or_app. now right.
  - rewrite Ht. apply in_or_app. now left.
  - intros up si' et ->.
    destruct (strict_eq (eventType w) "pull_request"); [discriminate |].
    now injection Hch as _ -> _.
Qed.

Lemma scan_uses_installed_engine_witness :
  is_scan Worlds.pinned_scan = true
  /\ In (Call Worlds.pinned_scan) (trace (run Worlds.pinned_version))
  /\ exists v p before_install after_install,
       trace (run Worlds.pinned_version)
       = before_install ++ Call (Install v) :: after_install
       /\ In (Call Worlds.pinned_scan) after_install
       /\ In (Call (Install v)) (trace (run Worlds.pinned_version))
       /\ gitleaks_Install (collab Worlds.pinned_version) v = Resolved p
       /\ forall up si et,
            Worlds.pinned_scan = Scan up si et -> gitleaksPath si = p.
Proof.
  assert (Hc : is_scan Worlds.pinned_scan = true) by reflexivity.
  assert (Hin : In (Call Worlds.pinned_scan)
                  (trace (run Worlds.pinned_version)))
    by (vm_compute; do 5 right; left; reflexivity).
  split; [exact Hc |]. split; [exact Hin |].
  apply (scan_uses_installed_engine Worlds.pinned_version
           Worlds.pinned_scan Hc Hin).
Defined.

(** Integers as a template literal prints them. *)
Example template_number_samples :
  map JS.template_number
    [0; 17; -3; 256; 2 ^ 53; 2 ^ 60; 2 ^ 64; 10 ^ 21; 2 ^ 70; 10 ^ 23;
     - (10 ^ 21)]%Z
  = ["0"; "17"; "-3"; "256"; "9007199254740992"; "1152921504606847000";
     "18446744073709552000"; "1e+21"; "1.1805916207174113e+21"; "1e+23";
     "-1e+21"].
Proof. vm_compute. reflexivity. Qed.
